(** * gimoji: the emoji table generator [gen-emojis.py]

    A shallow embedding of the script that fetches the OpenMoji table,
    remaps every record to the gitmoji schema and writes [emojis.json],
    together with the properties its specification states.

    Layout: Python strings and [str.lower]/[str.replace]; Python values
    as [json] decodes them; exceptions; the subscription, formatting and
    iteration primitives the script uses; [json.dump] as CPython's
    [json.encoder] writes it; the world (network, files, log); the four
    functions of the script and its [__main__] block; then the theorems. *)

From Stdlib Require Import PrimFloat Ascii String ZArith NArith.
From Stdlib Require Import DecimalString DecimalZ.
From stdpp Require Import base option list strings gmap.

Open Scope N_scope.

(** ** Python strings

    A Python [str] is a sequence of Unicode code points. *)

Definition codepoint := N.
Definition pystr := list codepoint.

(** A literal of the script, written as a Rocq string of ASCII characters. *)
Definition py (s : string) : pystr :=
  N_of_ascii <$> list_ascii_of_string s.

Definition SPACE : codepoint := 32.        (* ' ' *)
Definition UNDERSCORE : codepoint := 95.   (* '_' *)
Definition CAPITAL_SIGMA : codepoint := 0x3A3.
Definition FINAL_SIGMA : codepoint := 0x3C2.
Definition SMALL_SIGMA : codepoint := 0x3C3.

(** [s.replace(old, new)] where [old] is one character long, as in
    [.replace(' ', '_')]: every occurrence of the character is replaced. *)
Definition str_replace (old : codepoint) (new : pystr) (s : pystr) : pystr :=
  c ← s; if decide (c = old) then new else [c].

(** The tables of the Unicode character database that [str.lower] reads
    ([_PyUnicode_ToLowerFull], [_PyUnicode_IsCased],
    [_PyUnicode_IsCaseIgnorable]).  They belong to the interpreter, not
    to the script, and are taken as given. *)
Class UnicodeData := {
  to_lower_full : codepoint → pystr;
  is_cased : codepoint → bool;
  is_case_ignorable : codepoint → bool
}.

Section Lower.
Context `{UnicodeData}.

(** [handle_capital_sigma]: a capital sigma at index [i] is in final
    position when, skipping case-ignorable characters, a cased
    character precedes it and no cased character follows it.
    [before] holds the characters left of [i], nearest first. *)
Fixpoint skip_ignorable (s : pystr) : pystr :=
  match s with
  | c :: s' => if is_case_ignorable c then skip_ignorable s' else s
  | [] => []
  end.

Definition final_sigma (before after : pystr) : bool :=
  match skip_ignorable before with
  | c :: _ =>
      is_cased c &&
      match skip_ignorable after with
      | d :: _ => negb (is_cased d)
      | [] => true
      end
  | [] => false
  end.

Definition handle_capital_sigma (before after : pystr) : codepoint :=
  if final_sigma before after then FINAL_SIGMA else SMALL_SIGMA.

(** [lower_ucs4]: the lowercase mapping of one character in context. *)
Definition lower_ucs4 (before : pystr) (c : codepoint) (after : pystr) : pystr :=
  if decide (c = CAPITAL_SIGMA) then [handle_capital_sigma before after]
  else to_lower_full c.

(** [do_lower]: the mappings of all characters, left to right. *)
Fixpoint do_lower (before : pystr) (s : pystr) : pystr :=
  match s with
  | c :: after => lower_ucs4 before c after ++ do_lower (c :: before) after
  | [] => []
  end.

(** [s.lower()] *)
Definition str_lower (s : pystr) : pystr := do_lower [] s.
End Lower.

(** What the proofs use of the character database.  Each line is a fact
    of Unicode: ASCII letters map as in ASCII; a lowercase mapping is
    itself unchanged by lowercasing; no character outside ASCII maps to
    an ASCII character other than a small letter; capital sigma is never
    the result of a mapping; space and underscore are neither cased nor
    case-ignorable. *)
Definition ascii_lower (c : codepoint) : codepoint :=
  if (65 <=? c) && (c <=? 90) then c + 32 else c.

Class UnicodeFacts (U : UnicodeData) : Prop := {
  lower_ascii : ∀ c, c < 128 → to_lower_full c = [ascii_lower c];
  lower_stable : ∀ c d, d ∈ to_lower_full c → to_lower_full d = [d];
  lower_small_letter : ∀ c d,
    d ∈ to_lower_full c → 128 ≤ c → d < 128 → 97 ≤ d ≤ 122;
  lower_no_capital_sigma : ∀ c, CAPITAL_SIGMA ∉ to_lower_full c;
  lower_small_sigmas :
    to_lower_full FINAL_SIGMA = [FINAL_SIGMA] ∧
    to_lower_full SMALL_SIGMA = [SMALL_SIGMA];
  space_uncased :
    is_cased SPACE = false ∧ is_case_ignorable SPACE = false;
  underscore_uncased :
    is_cased UNDERSCORE = false ∧ is_case_ignorable UNDERSCORE = false
}.

(** ** Python values

    The objects [response.json()] can return, and the ones the script
    builds from them.  A [dict] keeps its items in insertion order (the
    order [json.dump] writes them in); its keys are strings, as they are
    in decoded JSON and in every dict display of the script.  The keys
    of a dict are distinct; nothing below depends on it. *)

#[warnings="-register-all"]
Inductive value : Type :=
| VNone
| VBool (b : bool)
| VInt (n : Z)
| VFloat (x : float)
| VStr (s : pystr)
| VList (items : list value)
| VDict (items : list (pystr * value)).

(** The exceptions that can travel through the script. *)
Inductive exn : Type :=
| KeyError (key : pystr)        (* d[k] with k absent *)
| TypeError                     (* subscripting or iterating the wrong type *)
| AttributeError                (* .replace on an object that is not a str *)
| RequestException              (* requests.get: no response *)
| JSONDecodeError               (* response.json(): malformed body *)
| OSError                       (* open(): the path cannot be written *)
| ValueError                    (* str(n): the int has too many digits *)
| UnicodeEncodeError.           (* f.write: a lone surrogate in the text *)

Inductive result (A : Type) : Type :=
| Ok (a : A)
| Raise (e : exn).
Arguments Ok {A} a.
Arguments Raise {A} e.

#[global] Instance result_ret : MRet result := λ A a, Ok a.
#[global] Instance result_bind : MBind result := λ A B k m,
  match m with
  | Ok a => k a
  | Raise e => Raise e
  end.
#[global] Instance result_fmap : FMap result := λ A B f m,
  match m with
  | Ok a => Ok (f a)
  | Raise e => Raise e
  end.

(** [k in d] and [d[k]] on the items of a dict. *)
Fixpoint dict_get (k : pystr) (items : list (pystr * value)) : option value :=
  match items with
  | (k', v) :: rest => if decide (k' = k) then Some v else dict_get k rest
  | [] => None
  end.

(** [v[k]] with a string [k]: only a dict can be subscripted by a string. *)
Definition getitem (v : value) (k : pystr) : result value :=
  match v with
  | VDict items =>
      match dict_get k items with
      | Some x => Ok x
      | None => Raise (KeyError k)
      end
  | _ => Raise TypeError
  end.

(** [v.replace]: of the values above only a [str] has the attribute. *)
Definition replace_receiver (v : value) : result pystr :=
  match v with
  | VStr s => Ok s
  | _ => Raise AttributeError
  end.

(** [for x in v]: a list yields its items, a dict its keys, a string its
    characters; nothing else is iterable. *)
Definition iterate (v : value) : result (list value) :=
  match v with
  | VList items => Ok items
  | VDict items => Ok ((λ kv, VStr kv.1) <$> items)
  | VStr s => Ok ((λ c, VStr [c]) <$> s)
  | _ => Raise TypeError
  end.

(** [bool(v)], the test of [if v:]. *)
Definition truth (v : value) : bool :=
  match v with
  | VNone => false
  | VBool b => b
  | VInt n => negb (n =? 0)%Z
  | VFloat x => negb (x =? 0)%float
  | VStr s => negb (bool_decide (s = []))
  | VList items => negb (bool_decide (length items = 0%nat))
  | VDict items => negb (bool_decide (length items = 0%nat))
  end.

(** The decimal numeral of an int: a minus sign for a negative one, then
    its digits. *)
Definition int_repr (n : Z) : pystr :=
  py (DecimalString.NilZero.string_of_int (Z.to_int n)).

(** [sys.get_int_max_str_digits()], which the script leaves at its
    default. *)
Definition MAX_STR_DIGITS : nat := 4300.

(** [str(n)] and [int.__repr__(n)]: the numeral, unless it has more
    digits than the limit, the sign not counted. *)
Definition int_str (n : Z) : result pystr :=
  if decide (MAX_STR_DIGITS < length (int_repr (Z.abs n)))%nat
  then Raise ValueError
  else Ok (int_repr n).

(** [repr] of a float and [str] of a list or dict are the interpreter's
    and are taken as given; the latter may raise, as [str] of an int
    inside the container may. *)
Class ObjectRepr := {
  float_repr : float → pystr;
  container_str : value → result pystr
}.

Section Mapper.
Context `{UnicodeData, ObjectRepr}.

(** [{v}] in an f-string: [format(v, '')], which is [str(v)]. *)
Definition format_value (v : value) : result pystr :=
  match v with
  | VStr s => Ok s
  | VNone => Ok (py "None")
  | VBool true => Ok (py "True")
  | VBool false => Ok (py "False")
  | VInt n => int_str n
  | VFloat x => Ok (float_repr x)
  | VList _ | VDict _ => container_str v
  end.

(** The dict display of [map_to_schema]; its entries are evaluated in
    the order written. *)
Definition mapped_record (emoji_data : value) : result value :=
  emoji ← getitem emoji_data (py "emoji");
  hexcode ← getitem emoji_data (py "hexcode");
  formatted ← format_value hexcode;
  let entity := py "&#x" ++ formatted ++ py ";" in
  annotation ← getitem emoji_data (py "annotation");
  s ← replace_receiver annotation;
  let code :=
    py ":" ++ str_lower (str_replace SPACE (py "_") s) ++ py ":" in
  description ← getitem emoji_data (py "annotation");
  annotation' ← getitem emoji_data (py "annotation");
  s' ← replace_receiver annotation';
  let name := str_lower (str_replace SPACE (py "_") s') in
  Ok (VDict [(py "emoji", emoji);
             (py "entity", VStr entity);
             (py "code", VStr code);
             (py "description", description);
             (py "name", VStr name);
             (py "semver", VNone)]).

(** The [for] loop: [mapped_emojis.append] once per item. *)
Fixpoint map_loop (items mapped_emojis : list value) : result (list value) :=
  match items with
  | emoji_data :: rest =>
      m ← mapped_record emoji_data;
      map_loop rest (mapped_emojis ++ [m])
  | [] => Ok mapped_emojis
  end.

Definition map_to_schema (emojis_data : value) : result (list value) :=
  items ← iterate emojis_data;
  map_loop items [].
End Mapper.

(** A character database for running the script on plain text: ASCII
    and the Greek letters, with the sigma rule. *)
Definition demo_lower (c : codepoint) : pystr :=
  if (65 <=? c) && (c <=? 90) then [c + 32]
  else if (0x391 <=? c) && (c <=? 0x3A9) && negb (c =? 0x3A2) then [c + 32]
  else [c].

Definition demo_cased (c : codepoint) : bool :=
  (65 <=? c) && (c <=? 90) || (97 <=? c) && (c <=? 122) ||
  (0x391 <=? c) && (c <=? 0x3C9) && negb (c =? 0x3A2).

Definition demo_case_ignorable (c : codepoint) : bool :=
  bool_decide (c ∈ [39; 46; 58; 94; 96]).

Definition demo_unicode : UnicodeData :=
  {| to_lower_full := demo_lower;
     is_cased := demo_cased;
     is_case_ignorable := demo_case_ignorable |}.

Definition demo_repr : ObjectRepr :=
  {| float_repr := λ _, py "0.0"; container_str := λ _, Ok (py "[...]") |}.

(** ** [json.dump(obj, f, ensure_ascii=False, indent=4)]

    The text CPython's [json.encoder] produces.  With [ensure_ascii]
    off, [encode_basestring] escapes only the quote, the backslash and
    the control characters below U+0020; with an indent the item
    separator is [","] followed by a newline and the indentation, and
    the key separator is [": "]. *)

Definition QUOTE : codepoint := 34.        (* the double quote *)
Definition BACKSLASH : codepoint := 92.
Definition NEWLINE : codepoint := 10.

Definition hex_digit (n : N) : codepoint :=
  if n <? 10 then 48 + n else 87 + n.

(** [ESCAPE_DCT] *)
Definition escape_char (c : codepoint) : pystr :=
  if decide (c = BACKSLASH) then [BACKSLASH; BACKSLASH]
  else if decide (c = QUOTE) then [BACKSLASH; QUOTE]
  else if decide (c = 8) then BACKSLASH :: py "b"
  else if decide (c = 12) then BACKSLASH :: py "f"
  else if decide (c = 10) then BACKSLASH :: py "n"
  else if decide (c = 13) then BACKSLASH :: py "r"
  else if decide (c = 9) then BACKSLASH :: py "t"
  else if c <? 32 then
    BACKSLASH :: py "u00" ++ [hex_digit (c / 16); hex_digit (c mod 16)]
  else [c].

Definition encode_basestring (s : pystr) : pystr :=
  [QUOTE] ++ (s ≫= escape_char) ++ [QUOTE].

(** [sep.join(parts)] *)
Fixpoint join (sep : pystr) (parts : list pystr) : pystr :=
  match parts with
  | [] => []
  | [p] => p
  | p :: rest => p ++ sep ++ join sep rest
  end.

(** [' ' * 4 * level] *)
Definition indentation (level : nat) : pystr :=
  mjoin (replicate level (py "    ")).

Section Encoder.
Context `{ObjectRepr}.

(** [floatstr] with [allow_nan] on. *)
Definition floatstr (x : float) : pystr :=
  if negb (x =? x)%float then py "NaN"
  else if (x =? infinity)%float then py "Infinity"
  else if (x =? neg_infinity)%float then py "-Infinity"
  else float_repr x.

(** What the encoder yields for an object that is not a container: one
    chunk, or the exception of [int.__repr__].  [None] for a list or a
    dict. *)
Definition atom (o : value) : option (result pystr) :=
  match o with
  | VStr s => Some (Ok (encode_basestring s))
  | VNone => Some (Ok (py "null"))
  | VBool true => Some (Ok (py "true"))
  | VBool false => Some (Ok (py "false"))
  | VInt n => Some (int_str n)
  | VFloat x => Some (Ok (floatstr x))
  | VList _ | VDict _ => None
  end.

(** [_iterencode] at [_current_indent_level = level]: the chunks the
    generator yields, in order; a [Raise] stands where the generator
    raises, and nothing after it is ever produced.  In a list the
    opening bracket or the separator is yielded in one chunk with an
    item that is not a container; in a dict the separator, the key, the
    colon and the value are chunks of their own. *)
Fixpoint iterencode (level : nat) (o : value) : list (result pystr) :=
  let newline_indent := NEWLINE :: indentation (S level) in
  let separator := py "," ++ newline_indent in
  match o with
  | VList [] => [Ok (py "[]")]
  | VList (value :: rest) =>
      let item buf value :=
        match atom value with
        | Some chunk => [(λ text, buf ++ text) <$> chunk]
        | None => Ok buf :: iterencode (S level) value
        end in
      item (py "[" ++ newline_indent) value ++
      (rest ≫= item separator) ++
      [Ok (NEWLINE :: indentation level); Ok (py "]")]
  | VDict [] => [Ok (py "{}")]
  | VDict (member :: rest) =>
      let item kv :=
        Ok (encode_basestring kv.1) :: Ok (py ": ") ::
        match atom kv.2 with
        | Some chunk => [chunk]
        | None => iterencode (S level) kv.2
        end in
      Ok (py "{") :: Ok newline_indent :: item member ++
      (rest ≫= λ kv, Ok separator :: item kv) ++
      [Ok (NEWLINE :: indentation level); Ok (py "}")]
  | _ => match atom o with Some chunk => [chunk] | None => [] end
  end.

(** The chunks a generator yields before it raises or ends. *)
Fixpoint yielded (chunks : list (result pystr)) : list pystr :=
  match chunks with
  | Ok chunk :: rest => chunk :: yielded rest
  | _ => []
  end.

(** [''.join(chunks)] over a generator: the chunks joined, or the
    exception the generator raises. *)
Fixpoint joined (chunks : list (result pystr)) : result pystr :=
  match chunks with
  | [] => Ok []
  | Ok chunk :: rest => (λ text, chunk ++ text) <$> joined rest
  | Raise e :: _ => Raise e
  end.

(** [json.dumps(o, ensure_ascii=False, indent=4)]: the text of an
    object. *)
Definition json_dumps (o : value) : result pystr := joined (iterencode 0 o).
End Encoder.

(** ** The world of the script

    What the script reads and changes: the network behind
    [requests.get], the files, and the records handed to [logging]
    (level [INFO] lets both levels through; the timestamp of the format
    string is left out).  A file is the text written to it; of its
    encoding to bytes the model keeps what can fail, a lone surrogate.
    A file that could be opened takes whatever is written to it: the
    device does not fill up or fail under the script. *)

Inductive levelname : Type := INFO | ERROR.

(** A response: its status and what [response.json()] does with its body. *)
Record Response := {
  status_code : Z;
  response_json : result value
}.

Record World := {
  requests_get : pystr → result Response;
  can_open : pystr → bool;   (* may [open(path, 'w')] succeed *)
  files : gmap pystr pystr;
  log : list (levelname * pystr)
}.

Definition set_files (fs : gmap pystr pystr) (w : World) : World :=
  {| requests_get := requests_get w; can_open := can_open w;
     files := fs; log := log w |}.

Definition set_log (l : list (levelname * pystr)) (w : World) : World :=
  {| requests_get := requests_get w; can_open := can_open w;
     files := files w; log := l |}.

(** A statement of the script: it runs in a world, and returns or
    raises in the world it leaves behind. *)
Definition prog (A : Type) : Type := World → result A * World.

#[global] Instance prog_ret : MRet prog := λ A a w, (Ok a, w).
#[global] Instance prog_bind : MBind prog := λ A B k m w,
  match m w with
  | (Ok a, w') => k a w'
  | (Raise e, w') => (Raise e, w')
  end.

(** A computation without effects, run as a statement. *)
Definition pure {A} (r : result A) : prog A := λ w, (r, w).

Definition get (u : pystr) : prog Response :=
  λ w, (requests_get w u, w).

Definition logging_info (msg : pystr) : prog unit :=
  λ w, (Ok tt, set_log (log w ++ [(INFO, msg)]) w).

Definition logging_error (msg : pystr) : prog unit :=
  λ w, (Ok tt, set_log (log w ++ [(ERROR, msg)]) w).

(** [open(path, 'w', encoding='utf-8')]: the file is created, or emptied
    if it exists. *)
Definition open_w (path : pystr) : prog unit :=
  λ w, if can_open w path
       then (Ok tt, set_files (<[path := []]> (files w)) w)
       else (Raise OSError, w).

(** A lone surrogate, which UTF-8 cannot encode. *)
Definition surrogate (c : codepoint) : bool :=
  (0xD800 <=? c) && (c <=? 0xDFFF).

Definition encodable (text : pystr) : bool :=
  forallb (λ c, negb (surrogate c)) text.

(** [f.write(text)] on the file opened at [path] with
    [encoding='utf-8']: the text is encoded as a whole and added to the
    file, or nothing of it is. *)
Definition file_write (path text : pystr) : prog unit :=
  λ w, if encodable text
       then (Ok tt,
             set_files
               (<[path := default [] (files w !! path) ++ text]> (files w)) w)
       else (Raise UnicodeEncodeError, w).

(** [for chunk in iterable: fp.write(chunk)]; what was written before an
    exception stays in the file, which the [with] statement closes. *)
Fixpoint write_chunks (f : pystr) (chunks : list (result pystr)) : prog unit :=
  match chunks with
  | Ok chunk :: rest => _ ← file_write f chunk; write_chunks f rest
  | Raise e :: _ => λ w, (Raise e, w)
  | [] => mret tt
  end.

(** ** The script *)

Definition url : pystr := py "https://openmoji.org/data/openmoji.json.gz".

Definition fetch_openmoji_data (url : pystr) : prog value :=
  response ← get url;
  if decide (status_code response = 200%Z) then
    pure (response_json response)
  else
    _ ← logging_error (py "Failed to fetch data from " ++ url);
    mret VNone.

Section Script.
Context `{UnicodeData, ObjectRepr}.

Definition json_dump (o : value) (f : pystr) : prog unit :=
  write_chunks f (iterencode 0 o).

Definition save_to_json (mapped_emojis : list value) (output_file : pystr)
  : prog unit :=
  _ ← open_w output_file;
  _ ← json_dump
        (VDict [(py "$schema", VStr (py "https://gitmoji.dev/api/gitmojis/schema"));
                (py "gitmojis", VList mapped_emojis)])
        output_file;
  logging_info (py "Emojis saved to " ++ output_file).

(** The [__main__] block. *)
Definition main : prog unit :=
  _ ← logging_info (py "Fetching OpenMoji data...");
  emojis_data ← fetch_openmoji_data url;
  if truth emojis_data then
    _ ← logging_info (py "Mapping emojis to the required schema...");
    mapped_emojis ← pure (map_to_schema emojis_data);
    let output_file := py "emojis.json" in
    _ ← logging_info (py "Saving mapped emojis to " ++ output_file ++ py "...");
    _ ← save_to_json mapped_emojis output_file;
    logging_info (py "Emojis fetched, mapped, and saved successfully.")
  else mret tt.
End Script.

(** [needle in hay] for strings. *)
Fixpoint contains (needle hay : pystr) : bool :=
  bool_decide (needle `prefix_of` hay) ||
  match hay with
  | _ :: hay' => contains needle hay'
  | [] => false
  end.

(** * Properties *)

(** ** Strings: [replace] and [lower] *)

(** Replacing spaces by underscores acts on each character alone. *)
Definition underscore_for_space (c : codepoint) : codepoint :=
  if decide (c = SPACE) then UNDERSCORE else c.

Lemma str_replace_space s :
  str_replace SPACE (py "_") s = underscore_for_space <$> s.
Proof.
  induction s as [|c s IH]; [done|].
  change (str_replace SPACE (py "_") (c :: s))
    with ((if decide (c = SPACE) then py "_" else [c])
            ++ str_replace SPACE (py "_") s).
  rewrite IH, fmap_cons. unfold underscore_for_space at 2.
  by destruct (decide (c = SPACE)).
Qed.

Lemma underscore_for_space_neq c : underscore_for_space c ≠ SPACE.
Proof.
  unfold underscore_for_space, SPACE, UNDERSCORE.
  destruct (decide (c = 32)); [done | congruence].
Qed.

Lemma underscore_for_space_sigma c :
  underscore_for_space c = CAPITAL_SIGMA ↔ c = CAPITAL_SIGMA.
Proof.
  unfold underscore_for_space, SPACE, UNDERSCORE, CAPITAL_SIGMA.
  destruct (decide (c = 32)) as [->|]; [split; discriminate | done].
Qed.

Lemma ascii_lower_small c : ¬ (65 ≤ ascii_lower c ≤ 90).
Proof.
  unfold ascii_lower.
  destruct (N.leb_spec 65 c), (N.leb_spec c 90); simpl; lia.
Qed.

Lemma ascii_lower_space c : ascii_lower c = SPACE → c = SPACE.
Proof.
  unfold ascii_lower, SPACE.
  destruct (N.leb_spec 65 c), (N.leb_spec c 90); simpl; lia.
Qed.

Section LowerFacts.
Context {U : UnicodeData} {F : UnicodeFacts U}.

(** No mapping produces a space, except that of the space itself. *)
Lemma to_lower_full_space c : SPACE ∈ to_lower_full c → c = SPACE.
Proof.
  intros Hin. destruct (decide (c < 128)) as [Hc|Hc].
  - rewrite (lower_ascii c Hc) in Hin.
    apply list_elem_of_singleton in Hin.
    symmetry in Hin. by apply ascii_lower_space.
  - pose proof (lower_small_letter c SPACE Hin) as Hs.
    unfold SPACE in Hs. lia.
Qed.

(** No mapping produces an ASCII capital letter. *)
Lemma to_lower_full_small c d : d ∈ to_lower_full c → ¬ (65 ≤ d ≤ 90).
Proof.
  intros Hin. destruct (decide (c < 128)) as [Hc|Hc].
  - rewrite (lower_ascii c Hc) in Hin.
    apply list_elem_of_singleton in Hin. subst d. apply ascii_lower_small.
  - destruct (decide (d < 128)) as [Hd|Hd]; [|lia].
    pose proof (lower_small_letter c d Hin). lia.
Qed.

Lemma to_lower_full_underscore :
  to_lower_full UNDERSCORE = [UNDERSCORE].
Proof. by rewrite lower_ascii. Qed.

Lemma to_lower_full_swap c :
  to_lower_full (underscore_for_space c)
  = underscore_for_space <$> to_lower_full c.
Proof.
  unfold underscore_for_space at 1.
  destruct (decide (c = SPACE)) as [->|Hc].
  - rewrite to_lower_full_underscore. by rewrite (lower_ascii SPACE).
  - symmetry. rewrite <- (list_fmap_id (to_lower_full c)) at 2.
    apply list_fmap_ext. intros i d Hd. simpl.
    unfold underscore_for_space.
    destruct (decide (d = SPACE)) as [->|]; [|done].
    apply list_elem_of_lookup_2 in Hd.
    by apply to_lower_full_space in Hd.
Qed.

Lemma is_cased_swap c : is_cased (underscore_for_space c) = is_cased c.
Proof.
  unfold underscore_for_space.
  destruct (decide (c = SPACE)) as [->|]; [|done].
  destruct space_uncased as [-> _]. by destruct underscore_uncased as [-> _].
Qed.

Lemma is_case_ignorable_swap c :
  is_case_ignorable (underscore_for_space c) = is_case_ignorable c.
Proof.
  unfold underscore_for_space.
  destruct (decide (c = SPACE)) as [->|]; [|done].
  destruct space_uncased as [_ ->]. by destruct underscore_uncased as [_ ->].
Qed.

Lemma skip_ignorable_swap s :
  skip_ignorable (underscore_for_space <$> s)
  = underscore_for_space <$> skip_ignorable s.
Proof.
  induction s as [|c s IH]; [done|].
  rewrite fmap_cons. simpl. rewrite is_case_ignorable_swap.
  by destruct (is_case_ignorable c).
Qed.

Lemma final_sigma_swap before after :
  final_sigma (underscore_for_space <$> before) (underscore_for_space <$> after)
  = final_sigma before after.
Proof.
  unfold final_sigma. rewrite !skip_ignorable_swap.
  destruct (skip_ignorable before) as [|c ?]; [done|].
  rewrite fmap_cons, is_cased_swap.
  destruct (skip_ignorable after) as [|d ?]; [done|].
  by rewrite fmap_cons, is_cased_swap.
Qed.

Lemma lower_ucs4_swap before c after :
  lower_ucs4 (underscore_for_space <$> before) (underscore_for_space c)
             (underscore_for_space <$> after)
  = underscore_for_space <$> lower_ucs4 before c after.
Proof.
  unfold lower_ucs4, handle_capital_sigma.
  rewrite final_sigma_swap.
  destruct (decide (c = CAPITAL_SIGMA)) as [->|Hc].
  - rewrite decide_True by done. by destruct (final_sigma before after).
  - rewrite decide_False by (by rewrite underscore_for_space_sigma).
    apply to_lower_full_swap.
Qed.

Lemma do_lower_swap before s :
  do_lower (underscore_for_space <$> before) (underscore_for_space <$> s)
  = underscore_for_space <$> do_lower before s.
Proof.
  revert before. induction s as [|c s IH]; intros before; [done|].
  rewrite fmap_cons. simpl. rewrite fmap_app, <- IH, fmap_cons.
  by rewrite lower_ucs4_swap.
Qed.

(** Lowercasing and replacing spaces can be done in either order. *)
Lemma lower_replace_commute s :
  str_lower (str_replace SPACE (py "_") s)
  = str_replace SPACE (py "_") (str_lower s).
Proof.
  rewrite !str_replace_space. unfold str_lower.
  apply (do_lower_swap []).
Qed.

(** A character that [lower] leaves alone wherever it stands. *)
Definition lowered (d : codepoint) : Prop :=
  d ≠ CAPITAL_SIGMA ∧ to_lower_full d = [d].

Lemma lower_ucs4_lowered before c after :
  Forall lowered (lower_ucs4 before c after).
Proof.
  unfold lower_ucs4, handle_capital_sigma.
  destruct (decide (c = CAPITAL_SIGMA)) as [->|Hc].
  - destruct lower_small_sigmas as [Hf Hs].
    apply Forall_singleton.
    by destruct (final_sigma before after).
  - apply Forall_forall. intros d Hd. split.
    + intros ->. by apply (lower_no_capital_sigma c).
    + by apply (lower_stable c).
Qed.

Lemma do_lower_lowered before s : Forall lowered (do_lower before s).
Proof.
  revert before. induction s as [|c s IH]; intros before; simpl.
  - constructor.
  - apply Forall_app. split; [apply lower_ucs4_lowered | apply IH].
Qed.

Lemma do_lower_fixed before s : Forall lowered s → do_lower before s = s.
Proof.
  intros Hs. revert before.
  induction Hs as [|c s [Hc Hl] _ IH]; intros before; [done|].
  simpl. unfold lower_ucs4. rewrite decide_False by done.
  by rewrite Hl, IH.
Qed.

(** [lower] is idempotent. *)
Lemma str_lower_idemp s : str_lower (str_lower s) = str_lower s.
Proof. apply do_lower_fixed, do_lower_lowered. Qed.

Lemma do_lower_no_capital before s d :
  d ∈ do_lower before s → ¬ (65 ≤ d ≤ 90).
Proof.
  revert before. induction s as [|c s IH]; intros before; simpl.
  - by intros ?%elem_of_nil.
  - intros [Hd|Hd]%elem_of_app; [|by eapply IH].
    unfold lower_ucs4, handle_capital_sigma in Hd.
    destruct (decide (c = CAPITAL_SIGMA)).
    + apply list_elem_of_singleton in Hd. subst d.
      unfold FINAL_SIGMA, SMALL_SIGMA.
      destruct (final_sigma before s); lia.
    + by eapply to_lower_full_small.
Qed.

Lemma lower_replace_no_space s :
  SPACE ∉ str_lower (str_replace SPACE (py "_") s).
Proof.
  rewrite lower_replace_commute, str_replace_space.
  intros (c & Hc & _)%list_elem_of_fmap.
  by eapply underscore_for_space_neq.
Qed.

Lemma colon_lowered : lowered 58.
Proof. split; [done|]. by rewrite lower_ascii. Qed.
End LowerFacts.

(** ** The Mapper *)

Definition required_fields : list pystr :=
  [py "emoji"; py "hexcode"; py "annotation"].

(** The first required field a dict lacks, in the order the dict display
    asks for them. *)
Definition first_missing (items : list (pystr * value)) : option pystr :=
  find (λ k, bool_decide (dict_get k items = None)) required_fields.

(** A record that lacks a required field. *)
Definition lacks_field (r : value) : Prop :=
  ∃ items k, r = VDict items ∧ k ∈ required_fields ∧ dict_get k items = None.

(** A raw record of the data model with all its fields: a dict that has
    [emoji], [hexcode] and [annotation], the hexcode being a value that
    [str] formats (as every string is) and the annotation a string. *)
Definition complete_record `{ObjectRepr} (r : value) : Prop :=
  ∃ items e h t a,
    r = VDict items ∧
    dict_get (py "emoji") items = Some e ∧
    dict_get (py "hexcode") items = Some h ∧
    format_value h = Ok t ∧
    dict_get (py "annotation") items = Some (VStr a).

(** The hexcode of a dict, if it has one, is a value that [str]
    formats. *)
Definition hexcode_formats `{ObjectRepr} (items : list (pystr * value)) : Prop :=
  ∀ h, dict_get (py "hexcode") items = Some h → ∃ t, format_value h = Ok t.

Section MapperFacts.
Context {U : UnicodeData} {R : ObjectRepr}.

(** The record built from the emoji, the formatted hexcode and the
    annotation. *)
Definition record_of (e : value) (t a : pystr) : value :=
  let name := str_lower (str_replace SPACE (py "_") a) in
  VDict [(py "emoji", e);
         (py "entity", VStr (py "&#x" ++ t ++ py ";"));
         (py "code", VStr (py ":" ++ name ++ py ":"));
         (py "description", VStr a);
         (py "name", VStr name);
         (py "semver", VNone)].

(** What the dict display does with an item, by the shape of the item
    and in the order the display reads it. *)
Lemma mapped_record_cases r :
  match r with
  | VDict items =>
      match dict_get (py "emoji") items, dict_get (py "hexcode") items with
      | Some e, Some h =>
          match format_value h with
          | Ok t =>
              match dict_get (py "annotation") items with
              | Some (VStr a) => mapped_record r = Ok (record_of e t a)
              | Some _ => mapped_record r = Raise AttributeError
              | None => mapped_record r = Raise (KeyError (py "annotation"))
              end
          | Raise x => mapped_record r = Raise x
          end
      | Some _, None => mapped_record r = Raise (KeyError (py "hexcode"))
      | None, _ => mapped_record r = Raise (KeyError (py "emoji"))
      end
  | _ => mapped_record r = Raise TypeError
  end.
Proof.
  destruct r as [| | | | |l|items]; try reflexivity.
  unfold mapped_record, getitem.
  destruct (dict_get (py "emoji") items) as [e|]; [|reflexivity].
  destruct (dict_get (py "hexcode") items) as [h|]; [|reflexivity].
  simpl. destruct (format_value h) as [t|x]; [|reflexivity].
  destruct (dict_get (py "annotation") items) as [v|]; [|reflexivity].
  by destruct v.
Qed.

Lemma mapped_record_fields items e h t a :
  dict_get (py "emoji") items = Some e →
  dict_get (py "hexcode") items = Some h →
  format_value h = Ok t →
  dict_get (py "annotation") items = Some (VStr a) →
  mapped_record (VDict items) = Ok (record_of e t a).
Proof.
  intros He Hh Ht Ha. pose proof (mapped_record_cases (VDict items)) as Hc.
  simpl in Hc. by rewrite He, Hh, Ht, Ha in Hc.
Qed.

Lemma mapped_record_complete r :
  complete_record r → ∃ m, mapped_record r = Ok m.
Proof.
  intros (items & e & h & t & a & -> & He & Hh & Ht & Ha).
  eexists. by eapply mapped_record_fields.
Qed.

Lemma mapped_record_ok_inv r m :
  mapped_record r = Ok m → complete_record r.
Proof.
  intros Hm. pose proof (mapped_record_cases r) as Hc.
  destruct r as [| | | | |l|items]; try congruence.
  destruct (dict_get (py "emoji") items) as [e|] eqn:He; [|congruence].
  destruct (dict_get (py "hexcode") items) as [h|] eqn:Hh; [|congruence].
  destruct (format_value h) as [t|x] eqn:Ht; [|congruence].
  destruct (dict_get (py "annotation") items) as [v|] eqn:Ha; [|congruence].
  destruct v as [| | | |a| |]; try congruence.
  by exists items, e, h, t, a.
Qed.

Lemma mapped_record_missing items k :
  first_missing items = Some k →
  hexcode_formats items →
  mapped_record (VDict items) = Raise (KeyError k).
Proof.
  intros Hk Hfmt. pose proof (mapped_record_cases (VDict items)) as Hc.
  revert Hk Hc. unfold first_missing, required_fields. simpl.
  destruct (dict_get (py "emoji") items) as [e|] eqn:He; simpl;
    [|by intros [= <-]].
  destruct (dict_get (py "hexcode") items) as [h|] eqn:Hh; simpl;
    [|by intros [= <-]].
  destruct (Hfmt h Hh) as [t ->].
  destruct (dict_get (py "annotation") items) as [v|] eqn:Ha; simpl;
    [done | by intros [= <-]].
Qed.

Lemma mapped_record_lacking r :
  lacks_field r → ∃ x, mapped_record r = Raise x.
Proof.
  intros (items & k & -> & Hk & Hnone).
  destruct (mapped_record (VDict items)) as [m|x] eqn:Hm; [|by eauto].
  destruct (mapped_record_ok_inv _ _ Hm)
    as (items' & e & h & t & a & [= <-] & He & Hh & _ & Ha).
  unfold required_fields in Hk.
  repeat (apply elem_of_cons in Hk as [->|Hk]; [congruence|]).
  by apply elem_of_nil in Hk.
Qed.

(** The loop appends the records of its items, in order, and stops at
    the first item whose record cannot be built. *)
Lemma map_loop_ok items acc out :
  map_loop items acc = Ok out ↔
  ∃ ms, out = acc ++ ms ∧ Forall2 (λ r m, mapped_record r = Ok m) items ms.
Proof.
  revert acc. induction items as [|r items IH]; intros acc; simpl.
  - split.
    + intros [= <-]. exists []. by rewrite app_nil_r.
    + intros (ms & -> & ->%Forall2_nil_inv_l). by rewrite app_nil_r.
  - destruct (mapped_record r) as [m|e] eqn:Hr; simpl.
    + rewrite IH. split.
      * intros (ms & -> & Hms). exists (m :: ms).
        rewrite <- app_assoc. split; [done|]. by constructor.
      * intros (ms & -> & Hms).
        apply Forall2_cons_inv_l in Hms as (m' & ms' & Hm' & Hms' & ->).
        assert (m' = m) as -> by congruence.
        exists ms'. by rewrite <- app_assoc.
    + split; [done|]. intros (ms & _ & Hms).
      apply Forall2_cons_inv_l in Hms as (m' & ms' & Hm' & _). congruence.
Qed.

Lemma map_loop_raise pre r post acc e :
  Forall (λ r, ∃ m, mapped_record r = Ok m) pre →
  mapped_record r = Raise e →
  map_loop (pre ++ r :: post) acc = Raise e.
Proof.
  intros Hpre Hr. revert acc.
  induction Hpre as [|r' pre [m Hm] _ IH]; intros acc; simpl.
  - by rewrite Hr.
  - rewrite Hm. simpl. apply IH.
Qed.

Lemma map_loop_total items acc :
  Forall (λ r, ∃ m, mapped_record r = Ok m) items →
  ∃ ms, map_loop items acc = Ok (acc ++ ms) ∧
        Forall2 (λ r m, mapped_record r = Ok m) items ms.
Proof.
  intros Hall. revert acc.
  induction Hall as [|r items [m Hm] _ IH]; intros acc; simpl.
  - exists []. by rewrite app_nil_r.
  - rewrite Hm. simpl. destruct (IH (acc ++ [m])) as (ms & -> & Hms).
    exists (m :: ms). rewrite <- app_assoc. split; [done|]. by constructor.
Qed.

(** Any list splits at its first item whose record cannot be built. *)
Lemma first_failure items :
  Forall (λ r, ∃ m, mapped_record r = Ok m) items ∨
  ∃ pre r post e,
    items = pre ++ r :: post ∧
    Forall (λ r, ∃ m, mapped_record r = Ok m) pre ∧
    mapped_record r = Raise e.
Proof.
  induction items as [|r items [IH|(pre & r' & post & e & -> & Hpre & Hr')]].
  - left. constructor.
  - destruct (mapped_record r) as [m|e] eqn:Hr.
    + left. constructor; eauto.
    + right. exists [], r, items, e. by repeat split.
  - destruct (mapped_record r) as [m|e'] eqn:Hr.
    + right. exists (r :: pre), r', post, e.
      repeat split; [|done]. constructor; eauto.
    + right. exists [], r, (pre ++ r' :: post), e'. by repeat split.
Qed.

Lemma map_to_schema_list raw mapped :
  map_to_schema (VList raw) = Ok mapped ↔
  Forall2 (λ r m, mapped_record r = Ok m) raw mapped.
Proof.
  unfold map_to_schema. simpl. rewrite map_loop_ok. split.
  - by intros (ms & -> & Hms).
  - intros Hms. by exists mapped.
Qed.
End MapperFacts.

(** The demonstration database satisfies the facts the proofs rely on. *)
Ltac split_comparisons :=
  repeat match goal with
    | |- context [N.leb ?a ?b] => destruct (N.leb_spec a b)
    | |- context [N.eqb ?a ?b] => destruct (N.eqb_spec a b)
    end;
  cbn [andb orb negb].

Lemma demo_lower_cases c :
  demo_lower c = [c] ∧ ¬ (65 ≤ c ≤ 90) ∧ ¬ (0x391 ≤ c ≤ 0x3A9 ∧ c ≠ 0x3A2)
  ∨ demo_lower c = [c + 32] ∧ (65 ≤ c ≤ 90 ∨ 0x391 ≤ c ≤ 0x3A9 ∧ c ≠ 0x3A2).
Proof.
  unfold demo_lower. split_comparisons.
  all: first [ solve [left; split; [reflexivity|lia]]
             | right; split; [reflexivity|lia] ].
Qed.

Lemma demo_lower_fixed d :
  ¬ (65 ≤ d ≤ 90) → ¬ (0x391 ≤ d ≤ 0x3A9) → demo_lower d = [d].
Proof.
  intros. unfold demo_lower. split_comparisons; first [reflexivity | lia].
Qed.

#[global] Instance demo_facts : UnicodeFacts demo_unicode.
Proof.
  split; simpl.
  - intros c Hc. unfold demo_lower, ascii_lower.
    split_comparisons; first [reflexivity | lia].
  - intros c d Hd.
    destruct (demo_lower_cases c) as [(E & ? & ?)|(E & ?)];
      rewrite E in Hd; apply list_elem_of_singleton in Hd; subst d.
    + done.
    + apply demo_lower_fixed; lia.
  - intros c d Hd ? ?.
    destruct (demo_lower_cases c) as [(E & ? & ?)|(E & ?)];
      rewrite E in Hd; apply list_elem_of_singleton in Hd; lia.
  - intros c Hd. unfold CAPITAL_SIGMA in Hd.
    destruct (demo_lower_cases c) as [(E & ? & ?)|(E & ?)];
      rewrite E in Hd; apply list_elem_of_singleton in Hd; lia.
  - done.
  - done.
  - done.
Qed.

(** ** The claims about the Mapper *)

Section MapperClaims.
Context {U : UnicodeData} {R : ObjectRepr}.

(** C1.  A raw record that has [emoji], [hexcode] and [annotation]
    (strings, as the data model has them) is mapped to the record
    with [emoji] copied, [entity] = ["&#x" + hexcode + ";"],
    [code] = [":" + name + ":"], [description] = the annotation,
    [name] = the annotation with spaces replaced by underscores,
    lowercased, and [semver] = [None]; the Mapper puts that record at
    the position of the raw record. *)
Theorem mapped_record_schema (items : list (pystr * value)) (e : value)
    (h a : pystr) :
  dict_get (py "emoji") items = Some e →
  dict_get (py "hexcode") items = Some (VStr h) →
  dict_get (py "annotation") items = Some (VStr a) →
  let name := str_lower (str_replace SPACE (py "_") a) in
  let record :=
    VDict [(py "emoji", e);
           (py "entity", VStr (py "&#x" ++ h ++ py ";"));
           (py "code", VStr (py ":" ++ name ++ py ":"));
           (py "description", VStr a);
           (py "name", VStr name);
           (py "semver", VNone)] in
  mapped_record (VDict items) = Ok record ∧
  map_to_schema (VList [VDict items]) = Ok [record] ∧
  ∀ (raw mapped : list value) (i : nat),
    map_to_schema (VList raw) = Ok mapped →
    raw !! i = Some (VDict items) →
    mapped !! i = Some record.
Proof.
  intros He Hh Ha name record.
  assert (mapped_record (VDict items) = Ok record) as Hrec
    by apply (mapped_record_fields items e (VStr h) h a He Hh eq_refl Ha).
  split; [done|]. split.
  - apply map_to_schema_list. by repeat constructor.
  - intros raw mapped i Hmap Hi.
    apply map_to_schema_list in Hmap.
    destruct (Forall2_lookup_l _ _ _ _ _ Hmap Hi) as (m & Hm & Hr).
    congruence.
Qed.

(** C2.  The mapped sequence has the length and the order of the raw
    sequence: its [i]-th record is the record built from the [i]-th
    raw record alone, by a function ([mapped_record]) that reads
    nothing else; and running the Mapper leaves the world as it was. *)
Theorem map_to_schema_length_order (raw mapped : list value) :
  map_to_schema (VList raw) = Ok mapped →
  length mapped = length raw ∧
  (∀ (i : nat) (m : value),
     mapped !! i = Some m ↔
     ∃ r, raw !! i = Some r ∧ mapped_record r = Ok m) ∧
  (∀ w : World, (pure (map_to_schema (VList raw)) w).2 = w).
Proof.
  intros Hmap. apply map_to_schema_list in Hmap.
  split; [symmetry; by eapply Forall2_length|]. split; [|done].
  intros i m. split.
  - intros Hm. destruct (Forall2_lookup_r _ _ _ _ _ Hmap Hm) as (r & ? & ?).
    by exists r.
  - intros (r & Hr & Hrec).
    destruct (Forall2_lookup_l _ _ _ _ _ Hmap Hr) as (m' & ? & ?).
    congruence.
Qed.

(** C4.  The Mapper raises as soon as a record lacks a required field:
    with complete records before it, the [KeyError] of the first field
    the record lacks (its hexcode, where it has one, being a value that
    [str] formats, as a string is); and wherever such a record stands,
    the Mapper does not return.  Nothing else is checked: when every
    record is a complete raw record the Mapper returns, with one record
    per raw record, in order, duplicates included. *)
Theorem map_to_schema_validation :
  (∀ pre items post k,
     Forall complete_record pre →
     first_missing items = Some k →
     hexcode_formats items →
     map_to_schema (VList (pre ++ VDict items :: post)) = Raise (KeyError k)) ∧
  (∀ raw,
     Exists lacks_field raw →
     ∃ e, map_to_schema (VList raw) = Raise e) ∧
  (∀ raw,
     Forall complete_record raw →
     ∃ mapped,
       map_to_schema (VList raw) = Ok mapped ∧
       length mapped = length raw ∧
       Forall2 (λ r m, mapped_record r = Ok m) raw mapped).
Proof.
  split; [|split].
  - intros pre items post k Hpre Hk Hfmt. unfold map_to_schema. simpl.
    apply map_loop_raise.
    + eapply Forall_impl; [exact Hpre|]. apply mapped_record_complete.
    + by apply mapped_record_missing.
  - intros raw Hex. unfold map_to_schema. simpl.
    destruct (first_failure raw) as [Hall|(pre & r & post & e & -> & Hpre & Hr)].
    + exfalso. apply Exists_exists in Hex as (r & Hin & Hlack).
      rewrite Forall_forall in Hall. destruct (Hall r Hin) as [m Hm].
      destruct (mapped_record_lacking r Hlack) as [x Hx]. congruence.
    + exists e. by apply map_loop_raise.
  - intros raw Hall.
    destruct (map_loop_total raw []) as (ms & Hms & HF).
    + eapply Forall_impl; [exact Hall|]. apply mapped_record_complete.
    + exists ms. repeat split; [done | | done].
      symmetry. by eapply Forall2_length.
Qed.
End MapperClaims.

(** ** The claims about [name] and [code] *)

(** A lowercase string: [lower] leaves it unchanged, and it holds no
    ASCII capital letter. *)
Definition is_lowercase `{UnicodeData} (s : pystr) : Prop :=
  str_lower s = s ∧ ∀ c, c ∈ s → ¬ (65 ≤ c ≤ 90).

(** The name as the script computes it: spaces replaced, then lowercased. *)
Definition name_coded `{UnicodeData} (annotation : pystr) : pystr :=
  str_lower (str_replace SPACE (py "_") annotation).

(** The name in the words of the data model, "lowercased annotation
    with spaces replaced by underscores": lowercased, then spaces
    replaced. *)
Definition name_specified `{UnicodeData} (annotation : pystr) : pystr :=
  str_replace SPACE (py "_") (str_lower annotation).

Section NameClaims.
Context {U : UnicodeData} {F : UnicodeFacts U} {R : ObjectRepr}.

Lemma name_coded_lowercase a : is_lowercase (name_coded a).
Proof.
  split.
  - apply str_lower_idemp.
  - intros c. apply do_lower_no_capital.
Qed.

Lemma code_lowercase a : is_lowercase (py ":" ++ name_coded a ++ py ":").
Proof.
  change (py ":") with [58]. split.
  - apply do_lower_fixed. constructor; [apply colon_lowered|].
    apply Forall_app. split; [apply do_lower_lowered|].
    constructor; [apply colon_lowered | constructor].
  - intros c [->|Hc]%elem_of_cons; [lia|].
    apply elem_of_app in Hc as [Hc|Hc].
    + by eapply do_lower_no_capital.
    + apply list_elem_of_singleton in Hc. lia.
Qed.

Lemma code_no_space a : SPACE ∉ py ":" ++ name_coded a ++ py ":".
Proof.
  change (py ":") with [58].
  intros [?|Hc]%elem_of_cons; [done|].
  apply elem_of_app in Hc as [Hc|Hc].
  - by apply lower_replace_no_space in Hc.
  - by apply list_elem_of_singleton in Hc.
Qed.

(** C8.  For a raw record with a non-empty annotation, the [name] and
    the [code] of its mapped record hold no space and are lowercase:
    [lower] leaves them unchanged and they hold no capital letter of
    ASCII.  This holds for every character database with the facts of
    [UnicodeFacts], the hexcode being a value that [str] formats (as a
    string is). *)
Theorem name_code_normalised (items : list (pystr * value)) (e h : value)
    (t a : pystr) :
  dict_get (py "emoji") items = Some e →
  dict_get (py "hexcode") items = Some h →
  format_value h = Ok t →
  dict_get (py "annotation") items = Some (VStr a) →
  a ≠ [] →
  ∃ m name code,
    mapped_record (VDict items) = Ok (VDict m) ∧
    dict_get (py "name") m = Some (VStr name) ∧
    dict_get (py "code") m = Some (VStr code) ∧
    (SPACE ∉ name) ∧ (SPACE ∉ code) ∧
    is_lowercase name ∧ is_lowercase code.
Proof.
  intros He Hh Ht Ha _.
  rewrite (mapped_record_fields items e h t a He Hh Ht Ha). unfold record_of.
  eexists _, (name_coded a), (py ":" ++ name_coded a ++ py ":").
  split; [reflexivity|]. split; [reflexivity|]. split; [reflexivity|].
  split; [apply lower_replace_no_space|].
  split; [apply code_no_space|].
  split; [apply name_coded_lowercase | apply code_lowercase].
Qed.

(** C10.  Replacing spaces and then lowercasing, as the script does,
    gives the string that lowercasing and then replacing spaces gives;
    so the mapped record holds the [name] and the [code] of the data
    model's wording.  This holds for every character database with the
    facts of [UnicodeFacts]: space and underscore lowercase to
    themselves, no other character lowercases to a space, and neither
    of the two changes whether a sigma is final.  The mapped record is
    that of a dict whose hexcode [str] formats (as it does a string). *)
Theorem name_orders_agree (a : pystr) :
  name_coded a = name_specified a ∧
  ∀ items e h t,
    dict_get (py "emoji") items = Some e →
    dict_get (py "hexcode") items = Some h →
    format_value h = Ok t →
    dict_get (py "annotation") items = Some (VStr a) →
    ∃ m,
      mapped_record (VDict items) = Ok (VDict m) ∧
      dict_get (py "name") m = Some (VStr (name_specified a)) ∧
      dict_get (py "code") m
      = Some (VStr (py ":" ++ name_specified a ++ py ":")).
Proof.
  assert (name_coded a = name_specified a) as Heq
    by apply lower_replace_commute.
  split; [done|]. intros items e h t He Hh Ht Ha.
  rewrite (mapped_record_fields items e h t a He Hh Ht Ha). unfold record_of.
  rewrite <- Heq. eexists. split; [reflexivity|]. by split.
Qed.
End NameClaims.

(** ** The Mapper on the record of the specification *)

Definition grinning_face : list (pystr * value) :=
  [(py "emoji", VStr [0x1F600]);
   (py "hexcode", VStr (py "1F600"));
   (py "annotation", VStr (py "Grinning Face"))].

Definition grinning_face_mapped : value :=
  VDict [(py "emoji", VStr [0x1F600]);
         (py "entity", VStr (py "&#x1F600;"));
         (py "code", VStr (py ":grinning_face:"));
         (py "description", VStr (py "Grinning Face"));
         (py "name", VStr (py "grinning_face"));
         (py "semver", VNone)].

Example map_grinning_face :
  @map_to_schema demo_unicode demo_repr (VList [VDict grinning_face])
  = Ok [grinning_face_mapped].
Proof. reflexivity. Qed.

Lemma mapped_record_schema_witness :
  @mapped_record demo_unicode demo_repr (VDict grinning_face)
  = Ok grinning_face_mapped.
Proof.
  exact (proj1 (@mapped_record_schema demo_unicode demo_repr grinning_face
                  (VStr [0x1F600]) (py "1F600") (py "Grinning Face")
                  eq_refl eq_refl eq_refl)).
Defined.

Lemma map_to_schema_validation_witness :
  first_missing [(py "emoji", VStr [0x1F600])] = Some (py "hexcode") ∧
  @map_to_schema demo_unicode demo_repr
    (VList [VDict grinning_face; VDict [(py "emoji", VStr [0x1F600])];
            VDict grinning_face])
  = Raise (KeyError (py "hexcode")).
Proof.
  split; [reflexivity|].
  apply (proj1 (@map_to_schema_validation demo_unicode demo_repr)
           [VDict grinning_face] [(py "emoji", VStr [0x1F600])]
           [VDict grinning_face] (py "hexcode"));
    [| reflexivity | intros h Hh; discriminate Hh].
  repeat constructor.
  exists grinning_face, (VStr [0x1F600]), (VStr (py "1F600")), (py "1F600"),
    (py "Grinning Face").
  repeat split; reflexivity.
Defined.

Lemma map_to_schema_length_order_witness :
  let raw := [VDict grinning_face; VDict grinning_face] in
  let mapped := [grinning_face_mapped; grinning_face_mapped] in
  @map_to_schema demo_unicode demo_repr (VList raw) = Ok mapped ∧
  length mapped = length raw ∧
  ∀ (i : nat) (m : value),
    mapped !! i = Some m ↔
    ∃ r, raw !! i = Some r ∧ @mapped_record demo_unicode demo_repr r = Ok m.
Proof.
  split; [reflexivity|].
  pose proof (@map_to_schema_length_order demo_unicode demo_repr
                [VDict grinning_face; VDict grinning_face]
                [grinning_face_mapped; grinning_face_mapped] eq_refl)
    as [Hlen [Hidx _]].
  split; [exact Hlen | exact Hidx].
Defined.

Lemma name_code_normalised_witness :
  ∃ m name code,
    @mapped_record demo_unicode demo_repr (VDict grinning_face) = Ok (VDict m) ∧
    dict_get (py "name") m = Some (VStr name) ∧
    dict_get (py "code") m = Some (VStr code) ∧
    (SPACE ∉ name) ∧ (SPACE ∉ code) ∧
    @is_lowercase demo_unicode name ∧ @is_lowercase demo_unicode code.
Proof.
  apply (@name_code_normalised demo_unicode demo_facts demo_repr grinning_face
           (VStr [0x1F600]) (VStr (py "1F600")) (py "1F600")
           (py "Grinning Face"));
    [reflexivity | reflexivity | reflexivity | reflexivity | discriminate].
Defined.

Lemma name_orders_agree_witness :
  @name_coded demo_unicode (py "Grinning Face") = py "grinning_face" ∧
  @name_specified demo_unicode (py "Grinning Face") = py "grinning_face".
Proof.
  pose proof (proj1 (@name_orders_agree demo_unicode demo_facts demo_repr
                       (py "Grinning Face"))) as Heq.
  split; [reflexivity | rewrite <- Heq; reflexivity].
Defined.

(** ** The Writer *)

Lemma indentation_spaces level :
  indentation level = replicate (4 * level) SPACE.
Proof.
  unfold indentation. induction level as [|level IH]; [done|].
  replace (4 * S level)%nat with (4 + 4 * level)%nat by lia.
  simpl. by rewrite IH.
Qed.

(** Only the quote, the backslash and the control characters are escaped. *)
Lemma escape_char_literal c :
  32 ≤ c → c ≠ QUOTE → c ≠ BACKSLASH → escape_char c = [c].
Proof.
  intros Hc Hq Hb. unfold escape_char.
  rewrite !decide_False by (done || (intros ->; unfold QUOTE, BACKSLASH in *; lia)).
  destruct (N.ltb_spec c 32); [lia | done].
Qed.

Lemma escape_char_non_ascii c : 128 ≤ c → escape_char c = [c].
Proof.
  intros Hc. apply escape_char_literal; unfold QUOTE, BACKSLASH; lia.
Qed.

Lemma encode_basestring_non_ascii s c s' :
  128 ≤ c →
  encode_basestring (s ++ c :: s')
  = QUOTE :: (s ≫= escape_char) ++ c :: (s' ≫= escape_char) ++ [QUOTE].
Proof.
  intros Hc. unfold encode_basestring.
  rewrite bind_app, bind_cons, (escape_char_non_ascii c Hc).
  simpl. by rewrite <- !app_assoc.
Qed.

(** A character [escape_char] writes as itself: every character but the
    quote, the backslash and the control characters; so every character
    outside ASCII. *)
Definition plain (c : codepoint) : Prop :=
  32 ≤ c ∧ c ≠ QUOTE ∧ c ≠ BACKSLASH.


(** *** What reaches the file *)

Lemma encodable_app a b : encodable (a ++ b) = encodable a && encodable b.
Proof. apply forallb_app. Qed.

Lemma surrogate_small c : c < 0xD800 → surrogate c = false.
Proof.
  intros Hc. unfold surrogate.
  destruct (N.leb_spec 0xD800 c); [lia | done].
Qed.

Lemma hex_digit_small n : n < 16 → hex_digit n < 128.
Proof. intros Hn. unfold hex_digit. destruct (N.ltb_spec n 10); lia. Qed.

Lemma escape_char_encodable c :
  surrogate c = false → encodable (escape_char c) = true.
Proof.
  intros Hc. unfold escape_char.
  repeat (destruct (decide _); [reflexivity|]).
  destruct (c <? 32) eqn:Hlt.
  - apply N.ltb_lt in Hlt.
    assert (hex_digit (c / 16) < 128)
      by (apply hex_digit_small, N.Div0.div_lt_upper_bound; lia).
    assert (hex_digit (c mod 16) < 128)
      by (apply hex_digit_small, N.mod_lt; lia).
    unfold encodable. cbn [py fmap list_fmap list_ascii_of_string app forallb].
    rewrite !surrogate_small by (try done; lia). reflexivity.
  - simpl. by rewrite Hc.
Qed.


(** What [write_chunks] adds to the file, and the exception that stops
    it, if one does: the chunks up to the first that holds a lone
    surrogate, or up to the place where the generator raises. *)
Fixpoint written (chunks : list (result pystr)) : pystr * option exn :=
  match chunks with
  | Ok chunk :: rest =>
      if encodable chunk
      then (chunk ++ (written rest).1, (written rest).2)
      else ([], Some UnicodeEncodeError)
  | Raise e :: _ => ([], Some e)
  | [] => ([], None)
  end.

Definition outcome (stop : option exn) : result unit :=
  match stop with
  | None => Ok tt
  | Some e => Raise e
  end.

Lemma set_files_same w : set_files (files w) w = w.
Proof. by destruct w. Qed.

Lemma write_chunks_run path chunks w old :
  files w !! path = Some old →
  write_chunks path chunks w
  = (outcome (written chunks).2,
     set_files (<[path := old ++ (written chunks).1]> (files w)) w).
Proof.
  revert w old. induction chunks as [|[chunk|e] rest IH]; intros w old Hold.
  - simpl. rewrite app_nil_r, (insert_id (files w) path old Hold).
    by rewrite set_files_same.
  - simpl. unfold mbind, prog_bind, file_write.
    destruct (encodable chunk); simpl.
    + rewrite Hold. simpl.
      rewrite (IH _ (old ++ chunk)) by apply lookup_insert_eq.
      simpl. unfold set_files. simpl.
      by rewrite insert_insert_eq, app_assoc.
    + rewrite app_nil_r, (insert_id (files w) path old Hold).
      by rewrite set_files_same.
  - simpl. rewrite app_nil_r, (insert_id (files w) path old Hold).
    by rewrite set_files_same.
Qed.


Lemma written_complete chunks :
  (written chunks).2 = None → (written chunks).1 = mjoin (yielded chunks).
Proof.
  induction chunks as [|[chunk|e] rest IH]; simpl; try done.
  destruct (encodable chunk); simpl; [|done].
  intros Hrest. by rewrite IH.
Qed.


Lemma yielded_yields cs : yielded (Ok <$> cs) = cs.
Proof. induction cs as [|c cs IH]; [done|]. rewrite fmap_cons. simpl. by f_equal. Qed.

Lemma joined_yields cs : joined (Ok <$> cs) = Ok (mjoin cs).
Proof.
  induction cs as [|c cs IH]; [done|]. rewrite fmap_cons. simpl. by rewrite IH.
Qed.

(** When nothing stopped the writing, the file holds the text that
    [json.dumps] returns; and a text that [json.dumps] returns is
    written whole when it holds no lone surrogate. *)
Lemma written_joined chunks :
  (written chunks).2 = None → joined chunks = Ok (written chunks).1.
Proof.
  induction chunks as [|[chunk|e] rest IH]; simpl; try done.
  destruct (encodable chunk); simpl; [|done].
  intros Hrest. by rewrite IH.
Qed.


Lemma written_stops cs c rest :
  Forall (λ c, encodable c = true) cs →
  encodable c = false →
  written (Ok <$> cs ++ c :: rest) = (mjoin cs, Some UnicodeEncodeError).
Proof.
  intros Hcs Hc. induction Hcs as [|c' cs Hc' _ IH].
  - simpl. by rewrite Hc.
  - change (written (Ok <$> (c' :: cs) ++ c :: rest))
      with (if encodable c'
            then (c' ++ (written (Ok <$> cs ++ c :: rest)).1,
                  (written (Ok <$> cs ++ c :: rest)).2)
            else ([], Some UnicodeEncodeError)).
    by rewrite Hc', IH.
Qed.

Section WriterFacts.
Context {U : UnicodeData} {R : ObjectRepr}.

(** The object [save_to_json] hands to [json.dump]. *)
Definition document (mapped_emojis : list value) : value :=
  VDict [(py "$schema", VStr (py "https://gitmoji.dev/api/gitmojis/schema"));
         (py "gitmojis", VList mapped_emojis)].

(** [save_to_json] where the file can be opened: the file holds what
    could be written of the document; the message is logged if all of
    it could. *)
Lemma save_to_json_run mapped path w :
  can_open w path = true →
  save_to_json mapped path w
  = let dumped := written (iterencode 0 (document mapped)) in
    let w' := set_files (<[path := dumped.1]> (files w)) w in
    match dumped.2 with
    | None =>
        (Ok tt, set_log (log w ++ [(INFO, py "Emojis saved to " ++ path)]) w')
    | Some e => (Raise e, w')
    end.
Proof.
  intros Hopen.
  unfold save_to_json, json_dump. fold (document mapped).
  unfold mbind at 1. unfold prog_bind at 1. unfold open_w. rewrite Hopen.
  unfold mbind at 1. unfold prog_bind at 1.
  rewrite (write_chunks_run path _ _ []) by apply lookup_insert_eq.
  generalize (written (iterencode 0 (document mapped))).
  intros [text [e|]]; cbn [outcome fst snd app]; cbv zeta;
    unfold logging_info, set_log, set_files; cbn [files log requests_get can_open];
    by rewrite insert_insert_eq.
Qed.

Lemma save_to_json_refused mapped path w :
  can_open w path = false →
  save_to_json mapped path w = (Raise OSError, w).
Proof.
  intros Hopen. unfold save_to_json, mbind, prog_bind, open_w.
  by rewrite Hopen.
Qed.

(** The files [save_to_json] leaves, and what it leaves alone. *)
Lemma save_to_json_files mapped path w :
  files (save_to_json mapped path w).2
  = if can_open w path
    then <[path := (written (iterencode 0 (document mapped))).1]> (files w)
    else files w.
Proof.
  destruct (can_open w path) eqn:Hopen.
  - rewrite (save_to_json_run mapped path w Hopen). cbv zeta.
    by destruct (written (iterencode 0 (document mapped))).2.
  - by rewrite (save_to_json_refused mapped path w Hopen).
Qed.

Lemma save_to_json_frame mapped path w :
  can_open (save_to_json mapped path w).2 = can_open w.
Proof.
  destruct (can_open w path) eqn:Hopen.
  - rewrite (save_to_json_run mapped path w Hopen). cbv zeta.
    by destruct (written (iterencode 0 (document mapped))).2.
  - by rewrite (save_to_json_refused mapped path w Hopen).
Qed.
End WriterFacts.

(** *** The text of a document of mapped records *)

(** A mapped record of the data model: the five strings of its fields
    (its [semver] is [None]). *)
Record gitmoji := {
  g_emoji : pystr;
  g_entity : pystr;
  g_code : pystr;
  g_description : pystr;
  g_name : pystr
}.

Definition gitmoji_value (g : gitmoji) : value :=
  VDict [(py "emoji", VStr (g_emoji g));
         (py "entity", VStr (g_entity g));
         (py "code", VStr (g_code g));
         (py "description", VStr (g_description g));
         (py "name", VStr (g_name g));
         (py "semver", VNone)].




(** A string literal between double quotes. *)
Definition quoted (s : string) : pystr := QUOTE :: py s ++ [QUOTE].

Section Text.
(** How a string of a record is written. *)
Variable literal : pystr → pystr.

(** A record, in the array of an object: braces behind eight spaces,
    members behind twelve. *)
Definition gitmoji_text (g : gitmoji) : pystr :=
  py "        {" ++ [NEWLINE] ++
  py "            " ++ quoted "emoji" ++ py ": " ++ literal (g_emoji g)
    ++ py "," ++ [NEWLINE] ++
  py "            " ++ quoted "entity" ++ py ": " ++ literal (g_entity g)
    ++ py "," ++ [NEWLINE] ++
  py "            " ++ quoted "code" ++ py ": " ++ literal (g_code g)
    ++ py "," ++ [NEWLINE] ++
  py "            " ++ quoted "description" ++ py ": "
    ++ literal (g_description g) ++ py "," ++ [NEWLINE] ++
  py "            " ++ quoted "name" ++ py ": " ++ literal (g_name g)
    ++ py "," ++ [NEWLINE] ++
  py "            " ++ quoted "semver" ++ py ": null" ++ [NEWLINE] ++
  py "        }".

(** The array: the records, a comma and a newline between them, within
    brackets; the closing one behind four spaces. *)
Definition gitmojis_text (gs : list gitmoji) : pystr :=
  match gs with
  | [] => py "[]"
  | g :: rest =>
      py "[" ++ [NEWLINE] ++
      gitmoji_text g ++
      (rest ≫= λ g', py "," ++ [NEWLINE] ++ gitmoji_text g') ++ [NEWLINE] ++
      py "    ]"
  end.

(** The object: its two members, each behind four spaces. *)
Definition document_text (gs : list gitmoji) : pystr :=
  py "{" ++ [NEWLINE] ++
  py "    " ++ quoted "$schema" ++ py ": "
    ++ quoted "https://gitmoji.dev/api/gitmojis/schema" ++ py "," ++ [NEWLINE] ++
  py "    " ++ quoted "gitmojis" ++ py ": " ++ gitmojis_text gs ++ [NEWLINE] ++
  py "}".
End Text.





(** The chunks the encoder yields for a record, two levels deep. *)
Definition gitmoji_chunks (g : gitmoji) : list pystr :=
  let separator := py "," ++ NEWLINE :: indentation 3 in
  [py "{"; NEWLINE :: indentation 3;
   encode_basestring (py "emoji"); py ": "; encode_basestring (g_emoji g);
   separator;
   encode_basestring (py "entity"); py ": "; encode_basestring (g_entity g);
   separator;
   encode_basestring (py "code"); py ": "; encode_basestring (g_code g);
   separator;
   encode_basestring (py "description"); py ": ";
     encode_basestring (g_description g);
   separator;
   encode_basestring (py "name"); py ": "; encode_basestring (g_name g);
   separator;
   encode_basestring (py "semver"); py ": "; py "null";
   NEWLINE :: indentation 2; py "}"].

(** The chunks for the array of the records, one level deep. *)
Definition gitmojis_chunks (gs : list gitmoji) : list pystr :=
  match gs with
  | [] => [py "[]"]
  | g :: rest =>
      (py "[" ++ NEWLINE :: indentation 2) :: gitmoji_chunks g ++
      (rest ≫= λ g', (py "," ++ NEWLINE :: indentation 2) :: gitmoji_chunks g') ++
      [NEWLINE :: indentation 1; py "]"]
  end.

(** The chunks for the document. *)
Definition document_chunks (gs : list gitmoji) : list pystr :=
  [py "{"; NEWLINE :: indentation 1;
   encode_basestring (py "$schema"); py ": ";
   encode_basestring (py "https://gitmoji.dev/api/gitmojis/schema");
   py "," ++ NEWLINE :: indentation 1;
   encode_basestring (py "gitmojis"); py ": "] ++
  gitmojis_chunks gs ++ [[NEWLINE]; py "}"].

Section TextFacts.
Context {R : ObjectRepr}.

Lemma iterencode_gitmoji g :
  iterencode 2 (gitmoji_value g) = Ok <$> gitmoji_chunks g.
Proof. reflexivity. Qed.

Lemma iterencode_further_gitmojis gs :
  ((gitmoji_value <$> gs) ≫= λ v,
     match atom v with
     | Some chunk =>
         [(λ text, (py "," ++ NEWLINE :: indentation 2) ++ text) <$> chunk]
     | None => Ok (py "," ++ NEWLINE :: indentation 2) :: iterencode 2 v
     end)
  = Ok <$> (gs ≫= λ g', (py "," ++ NEWLINE :: indentation 2) :: gitmoji_chunks g').
Proof.
  induction gs as [|g gs IH]; [done|].
  rewrite fmap_cons, !bind_cons, fmap_app, IH. reflexivity.
Qed.

Lemma iterencode_gitmojis gs :
  iterencode 1 (VList (gitmoji_value <$> gs)) = Ok <$> gitmojis_chunks gs.
Proof.
  destruct gs as [|g gs]; [reflexivity|].
  change (iterencode 1 (VList (gitmoji_value <$> g :: gs)))
    with ((Ok (py "[" ++ NEWLINE :: indentation 2)
             :: iterencode 2 (gitmoji_value g)) ++
          ((gitmoji_value <$> gs) ≫= λ v,
             match atom v with
             | Some chunk =>
                 [(λ text, (py "," ++ NEWLINE :: indentation 2) ++ text) <$> chunk]
             | None =>
                 Ok (py "," ++ NEWLINE :: indentation 2) :: iterencode 2 v
             end) ++
          [Ok (NEWLINE :: indentation 1); Ok (py "]")]).
  rewrite iterencode_further_gitmojis, iterencode_gitmoji.
  unfold gitmojis_chunks. by rewrite fmap_cons, !fmap_app.
Qed.

Lemma iterencode_document_of mapped :
  iterencode 0 (document mapped)
  = (Ok <$> [py "{"; NEWLINE :: indentation 1;
             encode_basestring (py "$schema"); py ": ";
             encode_basestring (py "https://gitmoji.dev/api/gitmojis/schema");
             py "," ++ NEWLINE :: indentation 1;
             encode_basestring (py "gitmojis"); py ": "]) ++
    iterencode 1 (VList mapped) ++
    (Ok <$> [[NEWLINE]; py "}"]).
Proof.
  transitivity
    ((Ok <$> [py "{"; NEWLINE :: indentation 1;
              encode_basestring (py "$schema"); py ": ";
              encode_basestring (py "https://gitmoji.dev/api/gitmojis/schema");
              py "," ++ NEWLINE :: indentation 1;
              encode_basestring (py "gitmojis"); py ": "]) ++
     (iterencode 1 (VList mapped) ++ []) ++
     (Ok <$> [[NEWLINE]; py "}"])); [reflexivity|].
  by rewrite app_nil_r.
Qed.

Lemma iterencode_document gs :
  iterencode 0 (document (gitmoji_value <$> gs)) = Ok <$> document_chunks gs.
Proof.
  rewrite iterencode_document_of, iterencode_gitmojis.
  unfold document_chunks. by rewrite !fmap_app.
Qed.
End TextFacts.

Lemma gitmoji_chunks_text g :
  py "        " ++ mjoin (gitmoji_chunks g) = gitmoji_text encode_basestring g.
Proof. reflexivity. Qed.

Lemma further_gitmojis_text (rest : list gitmoji) :
  mjoin (rest ≫= λ g', (py "," ++ NEWLINE :: indentation 2) :: gitmoji_chunks g')
  = rest ≫= λ g', py "," ++ [NEWLINE] ++ gitmoji_text encode_basestring g'.
Proof.
  unfold pystr in *. induction rest as [|g' rest IH]; [done|].
  rewrite !bind_cons, join_app, IH, <- gitmoji_chunks_text. reflexivity.
Qed.

Lemma gitmojis_chunks_text gs :
  mjoin (gitmojis_chunks gs) = gitmojis_text encode_basestring gs.
Proof.
  destruct gs as [|g rest]; [reflexivity|].
  unfold gitmojis_chunks, gitmojis_text.
  rewrite <- gitmoji_chunks_text, <- further_gitmojis_text.
  change (mjoin ((py "[" ++ NEWLINE :: indentation 2) :: ?l))
    with (py "[" ++ [NEWLINE] ++ py "        " ++ mjoin l).
  unfold pystr in *. rewrite !join_app, <- !app_assoc. reflexivity.
Qed.

Lemma document_chunks_text gs :
  mjoin (document_chunks gs) = document_text encode_basestring gs.
Proof.
  unfold document_chunks, document_text. unfold pystr in *.
  rewrite !join_app, gitmojis_chunks_text. reflexivity.
Qed.



Section DocumentFacts.
Context {R : ObjectRepr}.

(** The text of a document of mapped records. *)
Lemma json_dumps_gitmojis gs :
  json_dumps (document (gitmoji_value <$> gs))
  = Ok (document_text encode_basestring gs).
Proof.
  unfold json_dumps.
  by rewrite iterencode_document, joined_yields, document_chunks_text.
Qed.

End DocumentFacts.

Section WriterClaim.
Context {R : ObjectRepr}.

End WriterClaim.

(** ** The Fetcher and the pipeline *)

Lemma contains_suffix needle pre : contains needle (pre ++ needle) = true.
Proof.
  induction pre as [|c pre IH].
  - rewrite app_nil_l.
    destruct needle; cbn [contains]; by rewrite bool_decide_eq_true_2.
  - rewrite <- app_comm_cons. cbn [contains]. rewrite IH. apply orb_true_r.
Qed.

(** The ways a fetch can fail: the server answers with a status other
    than 200, [requests.get] raises, or the body of a 200 answer is not
    JSON.  [None] when the fetch returns the decoded body. *)
Inductive fetch_error : Type :=
| BadStatus (status : Z)
| NetworkFailure (e : exn)
| MalformedBody (e : exn).

Definition fetch_error_of (w : World) (u : pystr) : option fetch_error :=
  match requests_get w u with
  | Raise e => Some (NetworkFailure e)
  | Ok r =>
      if decide (status_code r = 200%Z) then
        match response_json r with
        | Raise e => Some (MalformedBody e)
        | Ok _ => None
        end
      else Some (BadStatus (status_code r))
  end.

Definition FETCHING : levelname * pystr :=
  (INFO, py "Fetching OpenMoji data...").
Definition FAILED (u : pystr) : levelname * pystr :=
  (ERROR, py "Failed to fetch data from " ++ u).

Lemma fetch_ok w u r :
  requests_get w u = Ok r → status_code r = 200%Z →
  fetch_openmoji_data u w = (response_json r, w).
Proof.
  intros Hget Hst. unfold fetch_openmoji_data, mbind, prog_bind, get, pure.
  rewrite Hget. by rewrite decide_True.
Qed.

Lemma fetch_bad_status w u r :
  requests_get w u = Ok r → status_code r ≠ 200%Z →
  fetch_openmoji_data u w = (Ok VNone, set_log (log w ++ [FAILED u]) w).
Proof.
  intros Hget Hst. unfold fetch_openmoji_data, mbind, prog_bind, get.
  rewrite Hget. by rewrite decide_False.
Qed.

Lemma fetch_network_failure w u e :
  requests_get w u = Raise e → fetch_openmoji_data u w = (Raise e, w).
Proof.
  intros Hget. unfold fetch_openmoji_data, mbind, prog_bind, get.
  by rewrite Hget.
Qed.

Section Pipeline.
Context {U : UnicodeData} {R : ObjectRepr}.

(** [main] in terms of what the Fetcher does after the first message. *)
Lemma main_after_fetch w :
  main w =
  let w1 := set_log (log w ++ [FETCHING]) w in
  match fetch_openmoji_data url w1 with
  | (Raise e, w2) => (Raise e, w2)
  | (Ok emojis_data, w2) =>
      if truth emojis_data then
        (_ ← logging_info (py "Mapping emojis to the required schema...");
         mapped_emojis ← pure (map_to_schema emojis_data);
         _ ← logging_info (py "Saving mapped emojis to emojis.json...");
         _ ← save_to_json mapped_emojis (py "emojis.json");
         logging_info (py "Emojis fetched, mapped, and saved successfully.")) w2
      else (Ok tt, w2)
  end.
Proof.
  unfold main. unfold mbind at 1 2. unfold prog_bind at 1 2.
  unfold logging_info at 1. fold FETCHING. simpl.
  destruct (fetch_openmoji_data url _) as [[v|e] w2]; [|done].
  by destruct (truth v).
Qed.

(** What [main] does when the fetch fails, by the kind of failure. *)
Lemma main_fetch_error w err :
  fetch_error_of w url = Some err →
  main w =
  match err with
  | BadStatus _ => (Ok tt, set_log (log w ++ [FETCHING; FAILED url]) w)
  | NetworkFailure e | MalformedBody e =>
      (Raise e, set_log (log w ++ [FETCHING]) w)
  end.
Proof.
  unfold fetch_error_of. intros Herr. rewrite main_after_fetch. simpl.
  set (w1 := set_log (log w ++ [FETCHING]) w).
  assert (requests_get w1 url = requests_get w url) as Hnet by done.
  destruct (requests_get w url) as [r|e] eqn:Hget.
  - destruct (decide (status_code r = 200%Z)) as [Hst|Hst].
    + rewrite (fetch_ok w1 url r Hnet Hst).
      destruct (response_json r) as [v|e]; [done|]. by injection Herr as <-.
    + rewrite (fetch_bad_status w1 url r Hnet Hst). injection Herr as <-.
      simpl. unfold set_log. simpl. by rewrite <- app_assoc.
  - rewrite (fetch_network_failure w1 url e Hnet). by injection Herr as <-.
Qed.

(** What [main] does when the fetch returns a value that tests false. *)
Lemma main_no_data w r v :
  requests_get w url = Ok r → status_code r = 200%Z →
  response_json r = Ok v → truth v = false →
  main w = (Ok tt, set_log (log w ++ [FETCHING]) w).
Proof.
  intros Hget Hst Hjson Hv. rewrite main_after_fetch. cbv zeta.
  rewrite (fetch_ok (set_log (log w ++ [FETCHING]) w) url r Hget Hst), Hjson.
  by rewrite Hv.
Qed.

(** What [main] does when it gets to open the file: the file holds what
    could be written of the document, and the last two messages are
    logged if all of it could. *)
Lemma main_dump w r v mapped :
  requests_get w url = Ok r → status_code r = 200%Z →
  response_json r = Ok v → truth v = true →
  map_to_schema v = Ok mapped →
  can_open w (py "emojis.json") = true →
  main w =
  let dumped := written (iterencode 0 (document mapped)) in
  let started :=
    [FETCHING;
     (INFO, py "Mapping emojis to the required schema...");
     (INFO, py "Saving mapped emojis to emojis.json...")] in
  let w' := set_files (<[py "emojis.json" := dumped.1]> (files w)) w in
  match dumped.2 with
  | None =>
      (Ok tt,
       set_log (log w ++ started ++
                [(INFO, py "Emojis saved to emojis.json");
                 (INFO, py "Emojis fetched, mapped, and saved successfully.")])
         w')
  | Some e => (Raise e, set_log (log w ++ started) w')
  end.
Proof.
  intros Hget Hst Hjson Hv Hmap Hopen. rewrite main_after_fetch. cbv zeta.
  rewrite (fetch_ok (set_log (log w ++ [FETCHING]) w) url r Hget Hst), Hjson, Hv.
  unfold mbind at 1 2 3. unfold prog_bind at 1 2 3.
  unfold logging_info at 1 2, pure. rewrite Hmap.
  unfold mbind, prog_bind. rewrite save_to_json_run by done.
  generalize (written (iterencode 0 (document mapped))).
  intros [text [e|]]; cbv zeta; cbn [fst snd];
    unfold logging_info, set_log, set_files;
    cbn [files log requests_get can_open];
    by rewrite <- !app_assoc.
Qed.
End Pipeline.

(** ** The claims about the Fetcher and the pipeline *)

(** C5, as amended.  On a 200 answer the Fetcher returns what
    [response.json()] gives, logging nothing.  On any other status it
    logs one error, whose text is ["Failed to fetch data from "]
    followed by the URL (so it names the URL, and nothing in it depends
    on the status), and returns [None] without raising. *)
Theorem fetch_openmoji_data_outcomes (w : World) (u : pystr) (r : Response) :
  requests_get w u = Ok r →
  (status_code r = 200%Z → fetch_openmoji_data u w = (response_json r, w)) ∧
  (status_code r ≠ 200%Z →
   ∃ msg,
     fetch_openmoji_data u w
     = (Ok VNone, set_log (log w ++ [(ERROR, msg)]) w) ∧
     msg = py "Failed to fetch data from " ++ u ∧
     contains u msg = true).
Proof.
  intros Hget. split; intros Hst.
  - by apply (fetch_ok w u r).
  - eexists. split; [by apply (fetch_bad_status w u r)|]. split; [done|].
    apply contains_suffix.
Qed.

Section PipelineClaims.
Context {U : UnicodeData} {R : ObjectRepr}.

(** C6.  When the fetch fails, whichever way, [main] leaves every file
    as it was, and logs nothing after the fetch: mapping and writing do
    not start. *)
Theorem fetch_failure_writes_nothing (w : World) (err : fetch_error) :
  fetch_error_of w url = Some err →
  files (main w).2 = files w ∧
  (log (main w).2 = log w ++ [FETCHING] ∨
   log (main w).2 = log w ++ [FETCHING; FAILED url]).
Proof.
  intros Herr. rewrite (main_fetch_error w err Herr).
  destruct err; simpl; auto.
Qed.

(** C7, as amended.  A fetch error stops the pipeline before mapping and
    writing.  An answer with a status other than 200 is logged as an
    error and [main] returns; a network failure or a malformed body is
    not logged: its exception leaves [main] uncaught. *)
Theorem fetch_error_halts (w : World) (err : fetch_error) :
  fetch_error_of w url = Some err →
  files (main w).2 = files w ∧
  match err with
  | BadStatus _ =>
      (main w).1 = Ok tt ∧ log (main w).2 = log w ++ [FETCHING; FAILED url]
  | NetworkFailure e | MalformedBody e =>
      (main w).1 = Raise e ∧ log (main w).2 = log w ++ [FETCHING]
  end.
Proof.
  intros Herr. rewrite (main_fetch_error w err Herr).
  by destruct err.
Qed.

(** C9.  When the server answers 200 with an empty JSON array, the fetch
    has not failed, yet [main] stops after it as it does after a failed
    fetch: it returns with only the first message logged and every file
    as it was. *)
Theorem empty_result_skips (w : World) (r : Response) :
  requests_get w url = Ok r →
  status_code r = 200%Z →
  response_json r = Ok (VList []) →
  fetch_error_of w url = None ∧
  main w = (Ok tt, set_log (log w ++ [FETCHING]) w) ∧
  files (main w).2 = files w.
Proof.
  intros Hget Hst Hjson. split; [|split].
  - unfold fetch_error_of. rewrite Hget, Hjson. by rewrite decide_True.
  - by apply (main_no_data w r (VList [])).
  - by rewrite (main_no_data w r (VList [])).
Qed.
End PipelineClaims.

(** ** Runs of the script *)

(** A world in which every request gets the same answer, any path can be
    written, and [emojis.json] exists already. *)
Definition world_answering (answer : result Response) : World :=
  {| requests_get := λ _, answer;
     can_open := λ _, true;
     files := {[py "emojis.json" := py "old"]};
     log := [] |}.

Definition answer (status : Z) (body : result value) : result Response :=
  Ok {| status_code := status; response_json := body |}.

Definition not_found : World :=
  world_answering (answer 404 (Raise JSONDecodeError)).
Definition server_error : World :=
  world_answering (answer 500 (Raise JSONDecodeError)).
Definition offline : World :=
  world_answering (Raise RequestException).
Definition garbled : World :=
  world_answering (answer 200 (Raise JSONDecodeError)).
Definition empty_table : World :=
  world_answering (answer 200 (Ok (VList []))).
Definition one_emoji : World :=
  world_answering (answer 200 (Ok (VList [VDict grinning_face]))).

Definition demo_main : prog unit := @main demo_unicode demo_repr.

(** The end-to-end run of the specification: the file that [main]
    writes for the one-record table. *)
Example end_to_end :
  (demo_main one_emoji).1 = Ok tt ∧
  files (demo_main one_emoji).2 !! py "emojis.json" =
  Some (join [NEWLINE]
    [py "{";
     py "    " ++ quoted "$schema" ++ py ": "
       ++ quoted "https://gitmoji.dev/api/gitmojis/schema" ++ py ",";
     py "    " ++ quoted "gitmojis" ++ py ": [";
     py "        {";
     py "            " ++ quoted "emoji" ++ py ": " ++ QUOTE :: 0x1F600 :: QUOTE :: py ",";
     py "            " ++ quoted "entity" ++ py ": " ++ quoted "&#x1F600;" ++ py ",";
     py "            " ++ quoted "code" ++ py ": " ++ quoted ":grinning_face:" ++ py ",";
     py "            " ++ quoted "description" ++ py ": " ++ quoted "Grinning Face" ++ py ",";
     py "            " ++ quoted "name" ++ py ": " ++ quoted "grinning_face" ++ py ",";
     py "            " ++ quoted "semver" ++ py ": null";
     py "        }";
     py "    ]";
     py "}"]).
Proof. split; vm_compute; reflexivity. Qed.

(** C5, as stated, fails: the error logged for a 404 answer does not
    hold the status, and is the very record logged for a 500 answer. *)
Lemma fetch_error_message_lacks_status :
  let msg := py "Failed to fetch data from https://openmoji.org/data/openmoji.json.gz" in
  (fetch_openmoji_data url not_found).1 = Ok VNone ∧
  log (fetch_openmoji_data url not_found).2 = [(ERROR, msg)] ∧
  contains (int_repr 404) msg = false ∧
  log (fetch_openmoji_data url server_error).2
  = log (fetch_openmoji_data url not_found).2.
Proof. repeat split; vm_compute; reflexivity. Qed.

Lemma fetch_openmoji_data_outcomes_witness :
  requests_get not_found url = answer 404 (Raise JSONDecodeError) ∧
  ∃ msg,
    fetch_openmoji_data url not_found
    = (Ok VNone, set_log (log not_found ++ [(ERROR, msg)]) not_found) ∧
    msg = py "Failed to fetch data from " ++ url ∧
    contains url msg = true.
Proof.
  split; [reflexivity|].
  apply (fetch_openmoji_data_outcomes not_found url
           {| status_code := 404; response_json := Raise JSONDecodeError |}
           eq_refl).
  discriminate.
Defined.

Definition grinning : gitmoji :=
  {| g_emoji := [0x1F600];
     g_entity := py "&#x1F600;";
     g_code := py ":grinning_face:";
     g_description := py "Grinning Face";
     g_name := py "grinning_face" |}.


Lemma fetch_failure_writes_nothing_witness :
  fetch_error_of not_found url = Some (BadStatus 404) ∧
  files (demo_main not_found).2 = files not_found ∧
  (log (demo_main not_found).2 = log not_found ++ [FETCHING] ∨
   log (demo_main not_found).2 = log not_found ++ [FETCHING; FAILED url]).
Proof.
  split; [reflexivity|].
  exact (@fetch_failure_writes_nothing demo_unicode demo_repr not_found
           (BadStatus 404) eq_refl).
Defined.

(** C7, as stated, fails: a network failure and a malformed body leave
    the log with the first message alone, no error among its records,
    and [main] with an uncaught exception. *)
Lemma unlogged_fetch_errors :
  (demo_main offline).1 = Raise RequestException ∧
  log (demo_main offline).2 = [(INFO, py "Fetching OpenMoji data...")] ∧
  (demo_main garbled).1 = Raise JSONDecodeError ∧
  log (demo_main garbled).2 = [(INFO, py "Fetching OpenMoji data...")].
Proof. repeat split; vm_compute; reflexivity. Qed.

Lemma fetch_error_halts_witness :
  fetch_error_of offline url = Some (NetworkFailure RequestException) ∧
  files (demo_main offline).2 = files offline ∧
  (demo_main offline).1 = Raise RequestException ∧
  log (demo_main offline).2 = log offline ++ [FETCHING].
Proof.
  split; [reflexivity|].
  exact (@fetch_error_halts demo_unicode demo_repr offline
           (NetworkFailure RequestException) eq_refl).
Defined.

Lemma empty_result_skips_witness :
  requests_get empty_table url = answer 200 (Ok (VList [])) ∧
  demo_main empty_table = (Ok tt, set_log (log empty_table ++ [FETCHING]) empty_table) ∧
  files (demo_main empty_table).2 = files empty_table.
Proof.
  split; [reflexivity|].
  exact (proj2 (@empty_result_skips demo_unicode demo_repr empty_table
                  {| status_code := 200; response_json := Ok (VList []) |}
                  eq_refl eq_refl eq_refl)).
Defined.


(** * Further properties of the script *)

(** ** The Mapper: which records it accepts, and how it fails *)

Section MapperMore.
Context {U : UnicodeData} {R : ObjectRepr}.

(** X1.  The dict display succeeds on an item exactly when the item is a
    dict that has [emoji], [hexcode] and [annotation], with a string for
    annotation and for hexcode a value that [str] formats: every string,
    but not an int of more than 4300 digits.  The emoji may hold any
    value. *)
Theorem mapped_record_ok_iff (r : value) :
  (∃ m, mapped_record r = Ok m) ↔ complete_record r.
Proof.
  split; [|apply mapped_record_complete].
  intros [m Hm]. by eapply mapped_record_ok_inv.
Qed.

(** X2.  A dict that has the three fields but whose annotation is not a
    string makes the Mapper raise [AttributeError], wherever it stands
    after complete records: having the fields is not enough.  (The
    hexcode is formatted first, so it is one that [str] formats.) *)
Theorem annotation_not_a_string (pre post : list value)
    (items : list (pystr * value)) (e h v : value) (t : pystr) :
  Forall complete_record pre →
  dict_get (py "emoji") items = Some e →
  dict_get (py "hexcode") items = Some h →
  format_value h = Ok t →
  dict_get (py "annotation") items = Some v →
  (∀ a, v ≠ VStr a) →
  mapped_record (VDict items) = Raise AttributeError ∧
  map_to_schema (VList (pre ++ VDict items :: post)) = Raise AttributeError.
Proof.
  intros Hpre He Hh Ht Ha Hv.
  assert (mapped_record (VDict items) = Raise AttributeError) as Hr.
  { pose proof (mapped_record_cases (VDict items)) as Hc. simpl in Hc.
    rewrite He, Hh, Ht, Ha in Hc. destruct v; try done. by destruct (Hv s). }
  split; [done|]. unfold map_to_schema. simpl.
  apply map_loop_raise; [|done].
  eapply Forall_impl; [exact Hpre|]. apply mapped_record_complete.
Qed.

(** X3.  The mapped record depends on the three required fields only:
    two dicts that agree on them are mapped alike, whatever else they
    hold and in whatever order. *)
Theorem mapped_record_reads_three_fields (items items' : list (pystr * value)) :
  (∀ k, k ∈ required_fields → dict_get k items = dict_get k items') →
  mapped_record (VDict items) = mapped_record (VDict items').
Proof.
  intros Hag.
  assert (dict_get (py "emoji") items = dict_get (py "emoji") items') as He
    by (apply Hag; unfold required_fields; set_solver).
  assert (dict_get (py "hexcode") items = dict_get (py "hexcode") items') as Hh
    by (apply Hag; unfold required_fields; set_solver).
  assert (dict_get (py "annotation") items
          = dict_get (py "annotation") items') as Ha
    by (apply Hag; unfold required_fields; set_solver).
  unfold mapped_record, getitem. by rewrite He, Hh, Ha.
Qed.

(** X4.  The Mapper works through concatenated input piece by piece:
    when it returns on two sequences, it returns on their concatenation
    the concatenation of the two results. *)
Theorem map_to_schema_app (raw1 raw2 mapped1 mapped2 : list value) :
  map_to_schema (VList raw1) = Ok mapped1 →
  map_to_schema (VList raw2) = Ok mapped2 →
  map_to_schema (VList (raw1 ++ raw2)) = Ok (mapped1 ++ mapped2).
Proof.
  rewrite !map_to_schema_list. apply Forall2_app.
Qed.

(** X5.  The first record that cannot be mapped decides the outcome:
    its exception is the Mapper's, whatever follows it, and nothing of
    the records mapped before it is returned. *)
Theorem map_to_schema_first_failure (pre post : list value) (mapped : list value)
    (r : value) (e : exn) :
  map_to_schema (VList pre) = Ok mapped →
  mapped_record r = Raise e →
  map_to_schema (VList (pre ++ r :: post)) = Raise e.
Proof.
  intros Hpre Hr. apply map_to_schema_list in Hpre.
  unfold map_to_schema. simpl. apply map_loop_raise; [|done].
  apply Forall_forall. intros x Hx.
  apply list_elem_of_lookup in Hx as [i Hi].
  destruct (Forall2_lookup_l _ _ _ _ _ Hpre Hi) as (m & _ & Hm). eauto.
Qed.

(** X6.  Decoded JSON that is not an array but tests true (a number, a
    non-empty string, a non-empty object, [true]) makes the Mapper raise
    [TypeError]: either it cannot be iterated, or what it yields cannot
    be subscripted by a field name. *)
Theorem map_to_schema_not_a_list (v : value) :
  (∀ items, v ≠ VList items) →
  truth v = true →
  map_to_schema v = Raise TypeError.
Proof.
  intros Hv Ht. destruct v as [|b|n|x|s|l|items]; try done.
  - by destruct s.
  - by destruct (Hv l).
  - by destruct items.
Qed.

(** X7.  Every record the Mapper returns has the six keys of the schema
    in the same order, a string for [entity], [code], [description] and
    [name], the [code] being the [name] between two colons, and [None]
    for [semver]. *)
Theorem map_to_schema_output_schema (v : value) (mapped : list value) (m : value) :
  map_to_schema v = Ok mapped →
  m ∈ mapped →
  ∃ (emoji : value) (entity description name : pystr),
    m = VDict [(py "emoji", emoji);
               (py "entity", VStr entity);
               (py "code", VStr (py ":" ++ name ++ py ":"));
               (py "description", VStr description);
               (py "name", VStr name);
               (py "semver", VNone)].
Proof.
  unfold map_to_schema. intros Hmap Hm.
  destruct (iterate v) as [items|] eqn:Hit; [|done]. simpl in Hmap.
  apply map_loop_ok in Hmap as (ms & -> & Hms). simpl in Hm.
  apply list_elem_of_lookup in Hm as [i Hi].
  destruct (Forall2_lookup_r _ _ _ _ _ Hms Hi) as (r & _ & Hr).
  destruct (mapped_record_ok_inv r m Hr)
    as (its & e & h & t & a & -> & He & Hh & Ht & Ha).
  rewrite (mapped_record_fields its e h t a He Hh Ht Ha) in Hr.
  injection Hr as <-. unfold record_of. eauto 10.
Qed.

(** X23.  A hexcode that [str] cannot format makes the Mapper raise
    what [str] raises, before the annotation is looked at: an int of
    more than 4300 digits gives [ValueError], whether or not the record
    has an annotation. *)
Theorem hexcode_too_long (pre post : list value)
    (items : list (pystr * value)) (e : value) (n : Z) :
  Forall complete_record pre →
  dict_get (py "emoji") items = Some e →
  dict_get (py "hexcode") items = Some (VInt n) →
  (MAX_STR_DIGITS < length (int_repr (Z.abs n)))%nat →
  mapped_record (VDict items) = Raise ValueError ∧
  map_to_schema (VList (pre ++ VDict items :: post)) = Raise ValueError.
Proof.
  intros Hpre He Hh Hn.
  assert (mapped_record (VDict items) = Raise ValueError) as Hr.
  { pose proof (mapped_record_cases (VDict items)) as Hc.
    cbn [format_value] in Hc. rewrite He, Hh in Hc.
    cbn [format_value] in Hc. unfold int_str in Hc.
    by rewrite decide_True in Hc. }
  split; [done|]. unfold map_to_schema. simpl.
  apply map_loop_raise; [|done].
  eapply Forall_impl; [exact Hpre|]. apply mapped_record_complete.
Qed.
End MapperMore.

(** ** The pipeline, stage by stage *)

Definition MAPPING : levelname * pystr :=
  (INFO, py "Mapping emojis to the required schema...").
Definition SAVING : levelname * pystr :=
  (INFO, py "Saving mapped emojis to emojis.json...").
Definition SAVED : levelname * pystr :=
  (INFO, py "Emojis saved to emojis.json").
Definition SUCCESS : levelname * pystr :=
  (INFO, py "Emojis fetched, mapped, and saved successfully.").

(** The Fetcher reads the network and may log; it changes nothing else. *)
Lemma fetch_frame w u :
  files (fetch_openmoji_data u w).2 = files w ∧
  can_open (fetch_openmoji_data u w).2 = can_open w ∧
  requests_get (fetch_openmoji_data u w).2 = requests_get w.
Proof.
  destruct (requests_get w u) as [r|e] eqn:Hget.
  - destruct (decide (status_code r = 200%Z)) as [Hst|Hst].
    + by rewrite (fetch_ok w u r Hget Hst).
    + by rewrite (fetch_bad_status w u r Hget Hst).
  - by rewrite (fetch_network_failure w u e Hget).
Qed.

Section Stages.
Context {U : UnicodeData} {R : ObjectRepr}.

(** How far [main] gets in a world. *)
Inductive stage : Type :=
| FetchFailed (err : fetch_error)
| NoData
| MapFailed (e : exn)
| WriteRefused
| WriteFailed (mapped : list value) (e : exn)
| Written (mapped : list value).

Definition stage_of (w : World) : stage :=
  match requests_get w url with
  | Raise e => FetchFailed (NetworkFailure e)
  | Ok r =>
      if decide (status_code r = 200%Z) then
        match response_json r with
        | Raise e => FetchFailed (MalformedBody e)
        | Ok v =>
            if truth v then
              match map_to_schema v with
              | Raise e => MapFailed e
              | Ok mapped =>
                  if can_open w (py "emojis.json") then
                    match (written (iterencode 0 (document mapped))).2 with
                    | Some e => WriteFailed mapped e
                    | None => Written mapped
                    end
                  else WriteRefused
              end
            else NoData
        end
      else FetchFailed (BadStatus (status_code r))
  end.

Lemma main_map_failure w r v e :
  requests_get w url = Ok r → status_code r = 200%Z →
  response_json r = Ok v → truth v = true →
  map_to_schema v = Raise e →
  main w = (Raise e, set_log (log w ++ [FETCHING; MAPPING]) w).
Proof.
  intros Hget Hst Hjson Hv Hmap. rewrite main_after_fetch. cbv zeta.
  rewrite (fetch_ok (set_log (log w ++ [FETCHING]) w) url r Hget Hst), Hjson, Hv.
  unfold mbind at 1 2. unfold prog_bind at 1 2.
  unfold logging_info at 1, pure. rewrite Hmap.
  unfold set_log. simpl. by rewrite <- app_assoc.
Qed.

Lemma main_write_refused w r v mapped :
  requests_get w url = Ok r → status_code r = 200%Z →
  response_json r = Ok v → truth v = true →
  map_to_schema v = Ok mapped →
  can_open w (py "emojis.json") = false →
  main w = (Raise OSError, set_log (log w ++ [FETCHING; MAPPING; SAVING]) w).
Proof.
  intros Hget Hst Hjson Hv Hmap Hopen. rewrite main_after_fetch. cbv zeta.
  rewrite (fetch_ok (set_log (log w ++ [FETCHING]) w) url r Hget Hst), Hjson, Hv.
  unfold mbind at 1 2 3. unfold prog_bind at 1 2 3.
  unfold logging_info at 1 2, pure. rewrite Hmap.
  unfold mbind, prog_bind. rewrite save_to_json_refused by done.
  unfold set_log. simpl. by rewrite <- !app_assoc.
Qed.

(** [main], by the stage it reaches. *)
Lemma main_by_stage w :
  main w =
  match stage_of w with
  | FetchFailed (BadStatus _) =>
      (Ok tt, set_log (log w ++ [FETCHING; FAILED url]) w)
  | FetchFailed (NetworkFailure e) | FetchFailed (MalformedBody e) =>
      (Raise e, set_log (log w ++ [FETCHING]) w)
  | NoData => (Ok tt, set_log (log w ++ [FETCHING]) w)
  | MapFailed e => (Raise e, set_log (log w ++ [FETCHING; MAPPING]) w)
  | WriteRefused =>
      (Raise OSError, set_log (log w ++ [FETCHING; MAPPING; SAVING]) w)
  | WriteFailed mapped e =>
      (Raise e,
       set_log (log w ++ [FETCHING; MAPPING; SAVING])
         (set_files
            (<[py "emojis.json" := (written (iterencode 0 (document mapped))).1]>
               (files w)) w))
  | Written mapped =>
      (Ok tt,
       set_log (log w ++ [FETCHING; MAPPING; SAVING; SAVED; SUCCESS])
         (set_files
            (<[py "emojis.json" := (written (iterencode 0 (document mapped))).1]>
               (files w)) w))
  end.
Proof.
  unfold stage_of.
  destruct (requests_get w url) as [r|e] eqn:Hget.
  2: { apply (main_fetch_error w (NetworkFailure e)).
       unfold fetch_error_of. by rewrite Hget. }
  destruct (decide (status_code r = 200%Z)) as [Hst|Hst].
  2: { apply (main_fetch_error w (BadStatus (status_code r))).
       unfold fetch_error_of. rewrite Hget. by rewrite decide_False. }
  destruct (response_json r) as [v|e] eqn:Hjson.
  2: { apply (main_fetch_error w (MalformedBody e)).
       unfold fetch_error_of. rewrite Hget, Hjson. by rewrite decide_True. }
  destruct (truth v) eqn:Hv; [|by apply (main_no_data w r v)].
  destruct (map_to_schema v) as [mapped|e] eqn:Hmap;
    [|by apply (main_map_failure w r v e)].
  destruct (can_open w (py "emojis.json")) eqn:Hopen;
    [|by apply (main_write_refused w r v mapped)].
  rewrite (main_dump w r v mapped Hget Hst Hjson Hv Hmap Hopen). cbv zeta.
  by destruct (written (iterencode 0 (document mapped))).2.
Qed.
End Stages.

(** ** The pipeline: what reaches the disk and the log *)

(** X8.  The Fetcher never touches a file: whatever the network does,
    it leaves the files as they were, and the log either as it was or
    with the one error record of a refused status added. *)
Theorem fetch_leaves_files (w : World) (u : pystr) :
  files (fetch_openmoji_data u w).2 = files w ∧
  (log (fetch_openmoji_data u w).2 = log w ∨
   log (fetch_openmoji_data u w).2 = log w ++ [FAILED u]).
Proof.
  split; [apply fetch_frame|].
  destruct (requests_get w u) as [r|e] eqn:Hget.
  - destruct (decide (status_code r = 200%Z)) as [Hst|Hst].
    + left. by rewrite (fetch_ok w u r Hget Hst).
    + right. by rewrite (fetch_bad_status w u r Hget Hst).
  - left. by rewrite (fetch_network_failure w u e Hget).
Qed.

(** Refutes that a record is among a few written-out others. *)
Ltac not_logged :=
  let H := fresh in
  intros H; vm_compute in H;
  repeat (apply elem_of_cons in H as [H|H]; [discriminate H|]);
  by apply elem_of_nil in H.

Section PipelineMore.
Context {U : UnicodeData} {R : ObjectRepr}.

(** X9.  When the fetched data cannot be mapped, the exception of the
    Mapper leaves [main] uncaught, after the mapping message and before
    any file is opened: every file is as it was. *)
Theorem mapping_failure_writes_nothing (w : World) (r : Response) (v : value)
    (e : exn) :
  requests_get w url = Ok r →
  status_code r = 200%Z →
  response_json r = Ok v →
  truth v = true →
  map_to_schema v = Raise e →
  (main w).1 = Raise e ∧
  files (main w).2 = files w ∧
  log (main w).2 = log w ++ [FETCHING; MAPPING].
Proof.
  intros Hget Hst Hjson Hv Hmap.
  by rewrite (main_map_failure w r v e Hget Hst Hjson Hv Hmap).
Qed.

(** X10.  When [emojis.json] cannot be opened for writing, [main] ends
    with [OSError] after the saving message; no file is changed and the
    messages of success are not logged. *)
Theorem unwritable_output (w : World) (r : Response) (v : value)
    (mapped : list value) :
  requests_get w url = Ok r →
  status_code r = 200%Z →
  response_json r = Ok v →
  truth v = true →
  map_to_schema v = Ok mapped →
  can_open w (py "emojis.json") = false →
  (main w).1 = Raise OSError ∧
  files (main w).2 = files w ∧
  log (main w).2 = log w ++ [FETCHING; MAPPING; SAVING].
Proof.
  intros Hget Hst Hjson Hv Hmap Hopen.
  by rewrite (main_write_refused w r v mapped Hget Hst Hjson Hv Hmap Hopen).
Qed.


(** X12.  Whatever the world, [main] changes no file other than
    [emojis.json]. *)
Theorem main_touches_only_output (w : World) (p : pystr) :
  p ≠ py "emojis.json" →
  files (main w).2 !! p = files w !! p.
Proof.
  intros Hp. rewrite main_by_stage.
  destruct (stage_of w) as [[]| | | |mapped e|mapped];
    cbn [snd files set_log set_files]; try done;
    by apply lookup_insert_ne.
Qed.

Lemma stage_written_inv w :
  (∀ mapped, stage_of w ≠ Written mapped) ∨
  ∃ r v mapped,
    stage_of w = Written mapped ∧
    requests_get w url = Ok r ∧ status_code r = 200%Z ∧
    response_json r = Ok v ∧ truth v = true ∧
    map_to_schema v = Ok mapped ∧
    can_open w (py "emojis.json") = true ∧
    (written (iterencode 0 (document mapped))).2 = None.
Proof.
  unfold stage_of.
  destruct (requests_get w url) as [r|e0]; [|by left].
  destruct (decide (status_code r = 200%Z)) as [Hst|Hst]; [|by left].
  destruct (response_json r) as [v|e] eqn:Hjson; [|by left].
  destruct (truth v) eqn:Hv; [|by left].
  destruct (map_to_schema v) as [mapped|e'] eqn:Hmap; [|by left].
  destruct (can_open w (py "emojis.json")); [|by left].
  destruct (written (iterencode 0 (document mapped))).2 eqn:Hstop; [by left|].
  right. exists r, v, mapped. repeat split; done.
Qed.

(** X13.  The log of [main] extends the old log, first by the fetching
    message; and the message of success is among the new records only
    if [main] has returned and [emojis.json] holds the text that
    [json.dumps] returns for the document of the records mapped from
    the fetched data. *)
Theorem success_message_means_written (w : World) :
  SUCCESS ∈ drop (length (log w)) (log (main w).2) →
  (main w).1 = Ok tt ∧
  ∃ r v mapped text,
    requests_get w url = Ok r ∧
    response_json r = Ok v ∧
    map_to_schema v = Ok mapped ∧
    json_dumps (document mapped) = Ok text ∧
    files (main w).2 !! py "emojis.json" = Some text.
Proof.
  intros Hin. destruct (stage_written_inv w) as [Hno|Hyes].
  - exfalso. revert Hin. rewrite main_by_stage.
    destruct (stage_of w) as [[]| | | |mapped e|mapped];
      cbn [snd log set_log set_files];
      rewrite ?drop_app_length; try not_logged.
    by destruct (Hno mapped).
  - destruct Hyes
      as (r & v & mapped & Hst & Hget & _ & Hjson & _ & Hmap & _ & Hstop).
    rewrite main_by_stage, Hst. cbn [fst snd files set_log set_files].
    split; [done|].
    exists r, v, mapped, (written (iterencode 0 (document mapped))).1.
    repeat split; try done.
    + by apply written_joined.
    + by rewrite lookup_insert_eq.
Qed.

(** X14.  A 200 answer whose body decodes to a value that tests false
    ([null], [false], [0], an empty string, array or object) is no
    fetch error, yet [main] stops after the fetch: it returns with
    nothing logged but the fetching message and every file as it was. *)
Theorem falsy_result_skips (w : World) (r : Response) (v : value) :
  requests_get w url = Ok r →
  status_code r = 200%Z →
  response_json r = Ok v →
  truth v = false →
  fetch_error_of w url = None ∧
  (main w).1 = Ok tt ∧
  files (main w).2 = files w ∧
  log (main w).2 = log w ++ [FETCHING].
Proof.
  intros Hget Hst Hjson Hv. split.
  - unfold fetch_error_of. rewrite Hget, Hjson. by rewrite decide_True.
  - by rewrite (main_no_data w r v Hget Hst Hjson Hv).
Qed.

(** X15.  A save replaces what an earlier save to the same path has
    left, whether the earlier one returned or raised part-way, and
    whether or not the path can be opened: the files after the second
    save are those the second save alone leaves.  So it is for the two
    calls in sequence, where the second runs only if the first
    returns. *)
Theorem save_to_json_twice (first second : list value) (path : pystr) (w : World) :
  files (save_to_json second path (save_to_json first path w).2).2
  = files (save_to_json second path w).2 ∧
  ((save_to_json first path w).1 = Ok tt →
   files ((_ ← save_to_json first path; save_to_json second path) w).2
   = files (save_to_json second path w).2).
Proof.
  assert (files (save_to_json second path (save_to_json first path w).2).2
          = files (save_to_json second path w).2) as Hfiles.
  { rewrite (save_to_json_files second), save_to_json_frame.
    rewrite (save_to_json_files first), (save_to_json_files second).
    destruct (can_open w path); [apply insert_insert_eq | done]. }
  split; [exact Hfiles|].
  unfold mbind, prog_bind.
  destruct (save_to_json first path w) as [[[]|e] w1]; [|discriminate].
  intros _. exact Hfiles.
Qed.

Lemma stage_frame w :
  requests_get (main w).2 = requests_get w ∧
  can_open (main w).2 = can_open w.
Proof.
  rewrite main_by_stage.
  by destruct (stage_of w) as [[]| | | |mapped e|mapped].
Qed.

(** X16.  While the server answers the same, running [main] again,
    however the first run ended, changes nothing on disk: the files
    after the second run are the files after the first. *)
Theorem main_rerun (w : World) :
  files (main (main w).2).2 = files (main w).2.
Proof.
  assert (stage_of (main w).2 = stage_of w) as Hsame.
  { destruct (stage_frame w) as [Hnet Hopen].
    unfold stage_of. by rewrite Hnet, Hopen. }
  rewrite (main_by_stage (main w).2), Hsame. rewrite (main_by_stage w).
  destruct (stage_of w) as [[]| | | |mapped e|mapped];
    cbn [snd files set_log set_files]; try done;
    apply insert_insert_eq.
Qed.

(** X17.  An error record is logged by [main] exactly when the server
    answered with a status other than 200: no failure of the network,
    of the decoding, of the mapping or of the writing is ever logged as
    an error. *)
Theorem error_logged_iff_bad_status (w : World) :
  (∃ msg, (ERROR, msg) ∈ drop (length (log w)) (log (main w).2)) ↔
  ∃ r, requests_get w url = Ok r ∧ status_code r ≠ 200%Z.
Proof.
  rewrite main_by_stage. unfold stage_of.
  destruct (requests_get w url) as [r|e0] eqn:Hget.
  2: { simpl. rewrite drop_app_length. split.
       - intros [msg Hin]. exfalso. revert Hin. not_logged.
       - by intros (r & ? & _). }
  destruct (decide (status_code r = 200%Z)) as [Hst|Hst].
  2: { simpl. rewrite drop_app_length. split; [by exists r|].
       intros _. exists (py "Failed to fetch data from " ++ url).
       unfold FAILED. set_solver. }
  split.
  - intros [msg Hin]. exfalso. revert Hin.
    destruct (response_json r) as [v|e];
      [|simpl; rewrite drop_app_length; not_logged].
    destruct (truth v); [|simpl; rewrite drop_app_length; not_logged].
    destruct (map_to_schema v) as [mapped|e];
      [|simpl; rewrite drop_app_length; not_logged].
    destruct (can_open w (py "emojis.json"));
      [destruct (written (iterencode 0 (document mapped))).2|];
      cbn [snd log set_log set_files];
      rewrite drop_app_length; not_logged.
  - intros (r' & [= <-] & Hne). done.
Qed.

End PipelineMore.

(** What is in the file when the [emoji] of the first record cannot be
    written. *)
Definition up_to_first_emoji : pystr :=
  py "{" ++ [NEWLINE] ++
  py "    " ++ quoted "$schema" ++ py ": "
    ++ quoted "https://gitmoji.dev/api/gitmojis/schema" ++ py "," ++ [NEWLINE] ++
  py "    " ++ quoted "gitmojis" ++ py ": [" ++ [NEWLINE] ++
  py "        {" ++ [NEWLINE] ++
  py "            " ++ quoted "emoji" ++ py ": ".

Lemma escape_char_surrogate c : surrogate c = true → escape_char c = [c].
Proof.
  unfold surrogate. intros [Hlo Hhi]%andb_true_iff.
  apply N.leb_le in Hlo. apply escape_char_literal;
    unfold QUOTE, BACKSLASH; lia.
Qed.

Lemma encode_basestring_keeps_surrogates s :
  encodable (encode_basestring s) = encodable s.
Proof.
  unfold encode_basestring. rewrite !encodable_app. simpl.
  rewrite andb_true_r.
  induction s as [|c s IH]; [done|].
  rewrite bind_cons, encodable_app, IH. simpl. f_equal.
  destruct (surrogate c) eqn:Hc.
  - rewrite (escape_char_surrogate c Hc). simpl. by rewrite Hc.
  - by rewrite escape_char_encodable.
Qed.

Section WriterStopped.
Context {R : ObjectRepr}.

(** X22.  A lone surrogate stops the Writer where it stands.  When the
    [emoji] of the first record holds one, the Writer raises
    [UnicodeEncodeError], the message is not logged, and the file is
    left with the text up to the colon behind that record's ["emoji"]:
    not a JSON document. *)
Theorem lone_surrogate_stops_writer (g : gitmoji) (rest : list gitmoji)
    (path : pystr) (w : World) :
  can_open w path = true →
  encodable (g_emoji g) = false →
  save_to_json (gitmoji_value <$> g :: rest) path w
  = (Raise UnicodeEncodeError,
     set_files (<[path := up_to_first_emoji]> (files w)) w).
Proof.
  intros Hopen Hg.
  rewrite (save_to_json_run _ path w Hopen), iterencode_document.
  assert (∃ tail,
    document_chunks (g :: rest)
    = [py "{"; NEWLINE :: indentation 1;
       encode_basestring (py "$schema"); py ": ";
       encode_basestring (py "https://gitmoji.dev/api/gitmojis/schema");
       py "," ++ NEWLINE :: indentation 1;
       encode_basestring (py "gitmojis"); py ": ";
       py "[" ++ NEWLINE :: indentation 2;
       py "{"; NEWLINE :: indentation 3;
       encode_basestring (py "emoji"); py ": "]
      ++ encode_basestring (g_emoji g) :: tail) as [tail ->]
    by (eexists; reflexivity).
  rewrite written_stops;
    [reflexivity | by repeat constructor
    | by rewrite encode_basestring_keeps_surrogates].
Qed.
End WriterStopped.

(** ** Names of plain annotations, and names of names *)

Lemma str_replace_no_space s :
  SPACE ∉ s → str_replace SPACE (py "_") s = s.
Proof.
  intros Hs. rewrite str_replace_space.
  rewrite <- (list_fmap_id s) at 2. apply list_fmap_ext.
  intros i c Hc. simpl. unfold underscore_for_space.
  destruct (decide (c = SPACE)) as [->|]; [|done].
  destruct Hs. by eapply list_elem_of_lookup_2.
Qed.

Section NamesMore.
Context {U : UnicodeData} {F : UnicodeFacts U}.

Lemma do_lower_ascii before s :
  Forall (λ c, c < 128) s → do_lower before s = ascii_lower <$> s.
Proof.
  intros Hs. revert before.
  induction Hs as [|c s Hc _ IH]; intros before; [done|].
  simpl. unfold lower_ucs4.
  rewrite decide_False by (unfold CAPITAL_SIGMA; lia).
  by rewrite (lower_ascii c Hc), IH.
Qed.

(** X18.  For an annotation of ASCII characters the [name] is computed
    character by character: a space becomes an underscore, a capital
    letter its small letter, and every other character, punctuation
    included, stays; so the name is as long as the annotation. *)
Theorem name_coded_ascii (a : pystr) :
  Forall (λ c, c < 128) a →
  name_coded a = (λ c, ascii_lower (underscore_for_space c)) <$> a ∧
  length (name_coded a) = length a.
Proof.
  intros Ha.
  assert (name_coded a = (λ c, ascii_lower (underscore_for_space c)) <$> a)
    as Heq.
  { unfold name_coded, str_lower. rewrite str_replace_space, do_lower_ascii.
    - by rewrite <- list_fmap_compose.
    - apply Forall_fmap. eapply Forall_impl; [exact Ha|].
      intros c Hc. simpl in *. unfold underscore_for_space, UNDERSCORE.
      destruct (decide (c = SPACE)); [lia | exact Hc]. }
  split; [done|]. by rewrite Heq, length_fmap.
Qed.

(** X19.  A name is its own name: computing the name of a name gives
    the name back. *)
Theorem name_coded_idemp (a : pystr) :
  name_coded (name_coded a) = name_coded a.
Proof.
  unfold name_coded at 1.
  rewrite str_replace_no_space by apply lower_replace_no_space.
  apply str_lower_idemp.
Qed.
End NamesMore.

(** ** String literals in the written file *)

Lemma escape_char_cases c :
  plain c ∧ escape_char c = [c] ∨
  ¬ plain c ∧ ∃ d t, escape_char c = BACKSLASH :: d :: t.
Proof.
  unfold plain, escape_char.
  destruct (decide (c = BACKSLASH)) as [->|Hb]; [right; split; [tauto | eauto]|].
  destruct (decide (c = QUOTE)) as [->|Hq]; [right; split; [tauto | eauto]|].
  destruct (decide (c = 8)) as [->|];
    [right; split; [unfold QUOTE, BACKSLASH; lia | by eexists _, _]|].
  destruct (decide (c = 12)) as [->|];
    [right; split; [unfold QUOTE, BACKSLASH; lia | by eexists _, _]|].
  destruct (decide (c = 10)) as [->|];
    [right; split; [unfold QUOTE, BACKSLASH; lia | by eexists _, _]|].
  destruct (decide (c = 13)) as [->|];
    [right; split; [unfold QUOTE, BACKSLASH; lia | by eexists _, _]|].
  destruct (decide (c = 9)) as [->|];
    [right; split; [unfold QUOTE, BACKSLASH; lia | by eexists _, _]|].
  destruct (N.ltb_spec c 32).
  - right. split; [lia | by eexists _, _].
  - by left.
Qed.

Lemma escaped_length s : (length s ≤ length (s ≫= escape_char))%nat.
Proof.
  induction s as [|c s IH]; [done|].
  rewrite bind_cons, length_app. simpl.
  destruct (escape_char_cases c) as [[_ ->]|[_ (d & t & ->)]]; simpl; lia.
Qed.

(** X20.  A string is written between the quotes exactly as it is when,
    and only when, it holds no quote, no backslash and no control
    character; every escape starts with a backslash. *)
Theorem encode_basestring_verbatim (s : pystr) :
  encode_basestring s = QUOTE :: s ++ [QUOTE] ↔ Forall plain s.
Proof.
  unfold encode_basestring. simpl. split.
  - intros Heq. injection Heq as Heq. apply app_inv_tail in Heq.
    induction s as [|c s IH]; [constructor|].
    rewrite bind_cons in Heq.
    destruct (escape_char_cases c) as [[Hc Hesc]|[_ (d & t & Hesc)]];
      rewrite Hesc in Heq; simpl in Heq.
    + injection Heq as Htl. constructor; [done | by apply IH].
    + injection Heq as _ Htl. exfalso.
      pose proof (escaped_length s) as Hlen.
      apply (f_equal length) in Htl. simpl in Htl.
      rewrite length_app in Htl. lia.
  - intros Hs. f_equal. f_equal.
    induction Hs as [|c s (Hc & Hq & Hb) _ IH]; [done|].
    by rewrite bind_cons, (escape_char_literal c Hc Hq Hb), IH.
Qed.

(** ** Further runs *)

Definition no_annotation_string : list (pystr * value) :=
  [(py "emoji", VStr [0x1F600]);
   (py "hexcode", VStr (py "1F600"));
   (py "annotation", VInt 5)].

(** The record of the specification as upstream sends it: other fields
    around the three, in another order. *)
Definition grinning_face_upstream : list (pystr * value) :=
  [(py "hexcode", VStr (py "1F600"));
   (py "group", VStr (py "smileys-emotion"));
   (py "annotation", VStr (py "Grinning Face"));
   (py "order", VInt 1);
   (py "emoji", VStr [0x1F600])].

Definition not_records : World :=
  world_answering (answer 200 (Ok (VList [VInt 1]))).
Definition null_body : World :=
  world_answering (answer 200 (Ok VNone)).
Definition read_only : World :=
  {| requests_get := λ _, answer 200 (Ok (VList [VDict grinning_face]));
     can_open := λ _, false;
     files := {[py "emojis.json" := py "old"]};
     log := [] |}.

Lemma annotation_not_a_string_witness :
  dict_get (py "annotation") no_annotation_string = Some (VInt 5) ∧
  @map_to_schema demo_unicode demo_repr
    (VList [VDict grinning_face; VDict no_annotation_string])
  = Raise AttributeError.
Proof.
  split; [reflexivity|].
  apply (@annotation_not_a_string demo_unicode demo_repr
           [VDict grinning_face] [] no_annotation_string
           (VStr [0x1F600]) (VStr (py "1F600")) (VInt 5) (py "1F600"));
    [| reflexivity | reflexivity | reflexivity | reflexivity | discriminate].
  repeat constructor.
  exists grinning_face, (VStr [0x1F600]), (VStr (py "1F600")), (py "1F600"),
    (py "Grinning Face").
  repeat split; reflexivity.
Defined.

(** The int whose numeral is a one and 4300 zeros, and a record with
    it for hexcode. *)
Definition ten_to_4300 : Z :=
  Z.of_int (Decimal.Pos (Decimal.D1 (Nat.iter 4300 Decimal.D0 Decimal.Nil))).

Definition huge_hexcode : list (pystr * value) :=
  [(py "emoji", VStr [0x1F600]); (py "hexcode", VInt ten_to_4300)].

Lemma iter_mul_ten n z : Nat.iter n (Z.mul 10) z = (z * 10 ^ Z.of_nat n)%Z.
Proof.
  induction n as [|n IH]; [simpl; lia|].
  rewrite Nat2Z.inj_succ, Z.pow_succ_r by lia. simpl. rewrite IH. lia.
Qed.

Lemma ten_to_4300_value : ten_to_4300 = (10 ^ 4300)%Z.
Proof.
  unfold ten_to_4300.
  change (Decimal.Pos (Decimal.D1 (Nat.iter 4300 Decimal.D0 Decimal.Nil)))
    with (Decimal.app_int (Decimal.Pos (Decimal.D1 Decimal.Nil))
            (Nat.iter 4300 Decimal.D0 Decimal.Nil)).
  rewrite DecimalZ.of_int_iter_D0, iter_mul_ten.
  change (Z.of_int (Decimal.Pos (Decimal.D1 Decimal.Nil))) with 1%Z.
  rewrite Z.mul_1_l. f_equal.
Qed.

Lemma ten_to_4300_digits :
  (MAX_STR_DIGITS < length (int_repr (Z.abs ten_to_4300)))%nat.
Proof.
  rewrite Z.abs_eq by apply N2Z.is_nonneg.
  unfold int_repr, ten_to_4300. rewrite DecimalZ.to_of.
  apply Nat.ltb_lt. vm_compute. reflexivity.
Qed.

Lemma hexcode_too_long_witness :
  @mapped_record demo_unicode demo_repr (VDict huge_hexcode)
  = Raise ValueError ∧
  @map_to_schema demo_unicode demo_repr
    (VList [VDict grinning_face; VDict huge_hexcode; VDict grinning_face])
  = Raise ValueError.
Proof.
  apply (@hexcode_too_long demo_unicode demo_repr
           [VDict grinning_face] [VDict grinning_face] huge_hexcode
           (VStr [0x1F600]) ten_to_4300);
    [| reflexivity | reflexivity | exact ten_to_4300_digits].
  repeat constructor.
  exists grinning_face, (VStr [0x1F600]), (VStr (py "1F600")), (py "1F600"),
    (py "Grinning Face").
  repeat split; reflexivity.
Defined.

Lemma mapped_record_reads_three_fields_witness :
  @mapped_record demo_unicode demo_repr (VDict grinning_face_upstream)
  = @mapped_record demo_unicode demo_repr (VDict grinning_face).
Proof.
  apply (@mapped_record_reads_three_fields demo_unicode demo_repr).
  intros k Hk. unfold required_fields in Hk.
  repeat (apply elem_of_cons in Hk as [->|Hk]; [reflexivity|]).
  by apply elem_of_nil in Hk.
Defined.

Lemma map_to_schema_app_witness :
  @map_to_schema demo_unicode demo_repr
    (VList ([VDict grinning_face] ++ [VDict grinning_face_upstream]))
  = Ok ([grinning_face_mapped] ++ [grinning_face_mapped]).
Proof.
  exact (@map_to_schema_app demo_unicode demo_repr
           [VDict grinning_face] [VDict grinning_face_upstream]
           [grinning_face_mapped] [grinning_face_mapped] eq_refl eq_refl).
Defined.

Lemma map_to_schema_first_failure_witness :
  @mapped_record demo_unicode demo_repr (VInt 1) = Raise TypeError ∧
  @map_to_schema demo_unicode demo_repr
    (VList ([VDict grinning_face] ++ VInt 1 :: [VDict no_annotation_string]))
  = Raise TypeError.
Proof.
  split; [reflexivity|].
  exact (@map_to_schema_first_failure demo_unicode demo_repr
           [VDict grinning_face] [VDict no_annotation_string]
           [grinning_face_mapped] (VInt 1) TypeError eq_refl eq_refl).
Defined.

Lemma map_to_schema_not_a_list_witness :
  truth (VDict [(py "emoji", VStr [0x1F600])]) = true ∧
  @map_to_schema demo_unicode demo_repr (VDict [(py "emoji", VStr [0x1F600])])
  = Raise TypeError.
Proof.
  split; [reflexivity|].
  apply (@map_to_schema_not_a_list demo_unicode demo_repr);
    [discriminate | reflexivity].
Defined.

Lemma map_to_schema_output_schema_witness :
  ∃ (emoji : value) (entity description name : pystr),
    grinning_face_mapped
    = VDict [(py "emoji", emoji);
             (py "entity", VStr entity);
             (py "code", VStr (py ":" ++ name ++ py ":"));
             (py "description", VStr description);
             (py "name", VStr name);
             (py "semver", VNone)].
Proof.
  apply (@map_to_schema_output_schema demo_unicode demo_repr
           (VList [VDict grinning_face_upstream]) [grinning_face_mapped]);
    [reflexivity | apply list_elem_of_here].
Defined.

Lemma mapping_failure_writes_nothing_witness :
  @map_to_schema demo_unicode demo_repr (VList [VInt 1]) = Raise TypeError ∧
  (demo_main not_records).1 = Raise TypeError ∧
  files (demo_main not_records).2 = files not_records ∧
  log (demo_main not_records).2 = log not_records ++ [FETCHING; MAPPING].
Proof.
  split; [reflexivity|].
  exact (@mapping_failure_writes_nothing demo_unicode demo_repr not_records
           {| status_code := 200; response_json := Ok (VList [VInt 1]) |}
           (VList [VInt 1]) TypeError eq_refl eq_refl eq_refl eq_refl eq_refl).
Defined.

Lemma unwritable_output_witness :
  can_open read_only (py "emojis.json") = false ∧
  (demo_main read_only).1 = Raise OSError ∧
  files (demo_main read_only).2 = files read_only ∧
  log (demo_main read_only).2 = log read_only ++ [FETCHING; MAPPING; SAVING].
Proof.
  split; [reflexivity|].
  exact (@unwritable_output demo_unicode demo_repr read_only
           {| status_code := 200;
              response_json := Ok (VList [VDict grinning_face]) |}
           (VList [VDict grinning_face]) [grinning_face_mapped]
           eq_refl eq_refl eq_refl eq_refl eq_refl eq_refl).
Defined.


Lemma main_touches_only_output_witness :
  files (demo_main one_emoji).2 !! py "README.md"
  = files one_emoji !! py "README.md".
Proof.
  apply (@main_touches_only_output demo_unicode demo_repr one_emoji
           (py "README.md")).
  discriminate.
Defined.

Lemma success_message_means_written_witness :
  (demo_main one_emoji).1 = Ok tt ∧
  ∃ r v mapped text,
    requests_get one_emoji url = Ok r ∧
    response_json r = Ok v ∧
    @map_to_schema demo_unicode demo_repr v = Ok mapped ∧
    @json_dumps demo_repr (document mapped) = Ok text ∧
    files (demo_main one_emoji).2 !! py "emojis.json" = Some text.
Proof.
  apply (@success_message_means_written demo_unicode demo_repr one_emoji).
  vm_compute. do 4 apply list_elem_of_further. apply list_elem_of_here.
Defined.

Lemma falsy_result_skips_witness :
  truth VNone = false ∧
  fetch_error_of null_body url = None ∧
  (demo_main null_body).1 = Ok tt ∧
  files (demo_main null_body).2 = files null_body ∧
  log (demo_main null_body).2 = log null_body ++ [FETCHING].
Proof.
  split; [reflexivity|].
  exact (@falsy_result_skips demo_unicode demo_repr null_body
           {| status_code := 200; response_json := Ok VNone |} VNone
           eq_refl eq_refl eq_refl eq_refl).
Defined.

(** A record whose emoji is half of a surrogate pair. *)
Definition half_pair : gitmoji :=
  {| g_emoji := [0xD83D];
     g_entity := py "&#x1F600;";
     g_code := py ":grinning_face:";
     g_description := py "Grinning Face";
     g_name := py "grinning_face" |}.


Lemma lone_surrogate_stops_writer_witness :
  @save_to_json demo_repr (gitmoji_value <$> [half_pair; grinning])
    (py "emojis.json") one_emoji
  = (Raise UnicodeEncodeError,
     set_files (<[py "emojis.json" := up_to_first_emoji]> (files one_emoji))
       one_emoji).
Proof.
  exact (@lone_surrogate_stops_writer demo_repr half_pair [grinning]
           (py "emojis.json") one_emoji eq_refl eq_refl).
Defined.

Lemma name_coded_ascii_witness :
  @name_coded demo_unicode (py "Flag: St. Lucia")
  = (λ c, ascii_lower (underscore_for_space c)) <$> py "Flag: St. Lucia" ∧
  length (@name_coded demo_unicode (py "Flag: St. Lucia"))
  = length (py "Flag: St. Lucia").
Proof.
  apply (@name_coded_ascii demo_unicode demo_facts).
  repeat (constructor; [reflexivity|]). constructor.
Defined.

Lemma name_coded_idemp_witness :
  @name_coded demo_unicode (@name_coded demo_unicode (py "Grinning Face"))
  = @name_coded demo_unicode (py "Grinning Face").
Proof.
  exact (@name_coded_idemp demo_unicode demo_facts (py "Grinning Face")).
Defined.
